(** * A shallow embedding of the 4-hole ocarina helper (NoteParser,
    FingeringEngine, ChartRenderer layout and export file names).

    JavaScript strings are modelled as Rocq [string]s of ASCII characters;
    the case conversions ([toUpperCase], [toLowerCase]), [trim] and the
    regular-expression class [\s] are written out for that alphabet.
    JavaScript numbers used by the layout code are modelled as exact
    rationals [Q]. A thrown exception is an explicit result constructor. *)

From Stdlib Require Import Bool Arith List String Ascii Lia QArith Qminmax Qabs Lqa.
Import ListNotations.
Open Scope string_scope.
Open Scope nat_scope.

(* ------------------------------------------------------------------ *)
(** ** JavaScript string primitives (ASCII) *)

Module Js.

(** Characters matched by the regular-expression class [\s] and removed by
    [String.prototype.trim]: tab, LF, VT, FF, CR and space. *)
Definition is_ws (c : ascii) : bool :=
  let n := nat_of_ascii c in
  ((9 <=? n) && (n <=? 13)) || (n =? 32).

Definition upper_char (c : ascii) : ascii :=
  let n := nat_of_ascii c in
  if (97 <=? n) && (n <=? 122) then ascii_of_nat (n - 32) else c.

Definition lower_char (c : ascii) : ascii :=
  let n := nat_of_ascii c in
  if (65 <=? n) && (n <=? 90) then ascii_of_nat (n + 32) else c.

Fixpoint map_chars (f : ascii -> ascii) (s : string) : string :=
  match s with
  | EmptyString => EmptyString
  | String c t => String (f c) (map_chars f t)
  end.

Fixpoint filter_chars (p : ascii -> bool) (s : string) : string :=
  match s with
  | EmptyString => EmptyString
  | String c t => if p c then String c (filter_chars p t) else filter_chars p t
  end.

(** [s.toUpperCase()] and [s.toLowerCase()] *)
Definition toUpperCase (s : string) : string := map_chars upper_char s.
Definition toLowerCase (s : string) : string := map_chars lower_char s.

Fixpoint ltrim (s : string) : string :=
  match s with
  | EmptyString => EmptyString
  | String c t => if is_ws c then ltrim t else s
  end.

Fixpoint rtrim (s : string) : string :=
  match s with
  | EmptyString => EmptyString
  | String c t =>
      let t' := rtrim t in
      match t' with
      | EmptyString => if is_ws c then EmptyString else String c EmptyString
      | _ => String c t'
      end
  end.

(** [s.trim()] *)
Definition trim (s : string) : string := rtrim (ltrim s).

Definition is_empty (s : string) : bool :=
  match s with EmptyString => true | _ => false end.

(** [s.charAt(0)] and [s.slice(1)] *)
Definition charAt0 (s : string) : string :=
  match s with EmptyString => EmptyString | String c _ => String c EmptyString end.
Definition slice1 (s : string) : string :=
  match s with EmptyString => EmptyString | String _ t => t end.

(** [arr.includes(x)] on an array of strings *)
Definition includes (xs : list string) (x : string) : bool :=
  existsb (String.eqb x) xs.

(** [arr.join(sep)] *)
Fixpoint join (sep : string) (xs : list string) : string :=
  match xs with
  | [] => EmptyString
  | [x] => x
  | x :: rest => x ++ sep ++ join sep rest
  end.

(** Decimal rendering of a non-negative integer, as template literals do. *)
Fixpoint digits_aux (fuel n : nat) (acc : string) : string :=
  match fuel with
  | O => acc
  | S f =>
      let acc' := String (ascii_of_nat (48 + n mod 10)) acc in
      if n <? 10 then acc' else digits_aux f (n / 10) acc'
  end.
Definition show_nat (n : nat) : string := digits_aux (S n) n EmptyString.

(** The double-quote character. *)
Definition dq : string := String (ascii_of_nat 34) EmptyString.

End Js.

(* ------------------------------------------------------------------ *)
(** ** Note-line tokenization: [line.split(/[\s,|\-]+/)] *)

Module Tok.
Import Js.

Definition is_sep (c : ascii) : bool :=
  is_ws c || Ascii.eqb c ","%char || Ascii.eqb c "|"%char || Ascii.eqb c "-"%char.

Definition snoc (s : string) (c : ascii) : string := s ++ String c EmptyString.

(** [s.split(/R+/)]: the pieces between maximal runs of separators. [cur] is
    the piece being read, [in_run] whether the previous character was a
    separator. *)
Fixpoint split_go (cur : string) (in_run : bool) (s : string) : list string :=
  match s with
  | EmptyString => [cur]
  | String c t =>
      if is_sep c then
        if in_run then split_go cur true t else cur :: split_go EmptyString true t
      else split_go (snoc cur c) false t
  end.

Definition split_seps (s : string) : list string := split_go EmptyString false s.

(** [line.split(/[\s,|\-]+/).map(note => note.trim()).filter(note => note.length > 0)],
    written identically in [parseNotesFromLine] and [validateNoteLine]. *)
Definition tokenize (line : string) : list string :=
  filter (fun n => negb (is_empty n)) (map trim (split_seps line)).

End Tok.

(* ------------------------------------------------------------------ *)
(** ** Validation types ([types/validation.ts]) *)

Inductive ErrorType :=
  INVALID_FILE_TYPE | UNSUPPORTED_NOTE | EMPTY_INPUT | PARSING_ERROR
| RENDERING_ERROR | EXPORT_ERROR.

Inductive WarningType := NOTE_CONVERSION | EMPTY_LINE | PERFORMANCE_WARNING.

Definition ErrorType_eqb (a b : ErrorType) : bool :=
  match a, b with
  | INVALID_FILE_TYPE, INVALID_FILE_TYPE | UNSUPPORTED_NOTE, UNSUPPORTED_NOTE
  | EMPTY_INPUT, EMPTY_INPUT | PARSING_ERROR, PARSING_ERROR
  | RENDERING_ERROR, RENDERING_ERROR | EXPORT_ERROR, EXPORT_ERROR => true
  | _, _ => false
  end.

Definition WarningType_eqb (a b : WarningType) : bool :=
  match a, b with
  | NOTE_CONVERSION, NOTE_CONVERSION | EMPTY_LINE, EMPTY_LINE
  | PERFORMANCE_WARNING, PERFORMANCE_WARNING => true
  | _, _ => false
  end.

(** Optional fields ([line?], [position?], [suggestions?]) are [option]s. *)
Record ValidationError := mkError {
  err_type : ErrorType;
  err_message : string;
  err_line : option nat;
  err_position : option nat;
  err_suggestions : option (list string)
}.

Record ValidationWarning := mkWarning {
  warn_type : WarningType;
  warn_message : string;
  warn_line : option nat;
  warn_position : option nat
}.

Record ValidationResult := mkResult {
  isValid : bool;
  errors : list ValidationError;
  warnings : list ValidationWarning
}.

(** [errors.length === 0] *)
Definition no_errors (es : list ValidationError) : bool :=
  match es with [] => true | _ => false end.

Definition SUPPORTED_NOTES : list string := ["F"; "G"; "A"; "Bb"; "C"; "D"; "E"].

(* ------------------------------------------------------------------ *)
(** ** [core/NoteParser.ts] *)

Module NoteParser.
Import Js Tok.

Record ParseConfig := mkParseConfig {
  autoConvertB : bool;
  strictValidation : bool;
  maxLines : nat;
  maxNotesPerLine : nat
}.

Definition DEFAULT_CONFIG : ParseConfig := mkParseConfig true true 100 50.

Record SongMetadata := mkMetadata {
  originalInput : string;
  parseTimestamp : nat;   (* the [new Date()] of the call, in milliseconds *)
  noteCount : nat
}.

Record Song := mkSong {
  title : string;
  lines : list (list string);
  metadata : SongMetadata
}.

(** [convertNotes] *)
Fixpoint convertNotes (cfg : ParseConfig) (notes : list string)
  : list string * list ValidationWarning :=
  match notes with
  | [] => ([], [])
  | note :: rest =>
      let '(ns, ws) := convertNotes cfg rest in
      if String.eqb (toUpperCase note) "B" && autoConvertB cfg then
        ("Bb" :: ns,
         mkWarning NOTE_CONVERSION
           "Converted 'B' to 'Bb' (4-hole ocarinas use Bb instead of B)" None None :: ws)
      else (note :: ns, ws)
  end.

(** [input.split(/\r?\n/)]: split at each LF, dropping one CR just before it. *)
Definition drop_final_cr (s : string) : string :=
  let n := String.length s in
  match String.get (n - 1) s with
  | Some c => if (0 <? n) && Ascii.eqb c (ascii_of_nat 13)
              then String.substring 0 (n - 1) s else s
  | None => s
  end.

Fixpoint split_lf (cur : string) (s : string) : list string :=
  match s with
  | EmptyString => [cur]
  | String c t =>
      if Ascii.eqb c (ascii_of_nat 10) then drop_final_cr cur :: split_lf EmptyString t
      else split_lf (snoc cur c) t
  end.

(** [preprocessInput] *)
Definition preprocessInput (input : string) : list string :=
  map trim (split_lf EmptyString input).

(** [titleLine.replace(/^(title|song|name):\s*/i, '')] *)
Definition strip_prefix_ci (p s : string) : option string :=
  if String.eqb (toLowerCase (String.substring 0 (String.length p) s)) p
  then Some (ltrim (String.substring (String.length p) (String.length s) s))
  else None.

Definition strip_title_prefix (s : string) : string :=
  match strip_prefix_ci "title:" s with
  | Some r => r
  | None =>
      match strip_prefix_ci "song:" s with
      | Some r => r
      | None => match strip_prefix_ci "name:" s with Some r => r | None => s end
      end
  end.

(** [extractTitle] *)
Definition extractTitle (ls : list string) : string :=
  match ls with
  | [] => "Untitled Song"
  | l0 :: _ =>
      let titleLine := trim l0 in
      if is_empty titleLine then "Untitled Song"
      else
        let cleanTitle := trim (strip_title_prefix titleLine) in
        if is_empty cleanTitle then "Untitled Song" else cleanTitle
  end.

(** Case normalization in [parseNotesFromLine]. *)
Definition normalize_case (note : string) : string :=
  let upperNote := toUpperCase note in
  if String.eqb upperNote "BB" then "Bb"
  else if includes SUPPORTED_NOTES upperNote then upperNote
  else note.

(** [parseNotesFromLine] *)
Definition parseNotesFromLine (cfg : ParseConfig) (line : string) : list string :=
  map normalize_case (fst (convertNotes cfg (tokenize line))).

(** [parseNoteLines] *)
Fixpoint parseNoteLines (cfg : ParseConfig) (ls : list string) : list (list string) :=
  match ls with
  | [] => []
  | line :: rest =>
      if is_empty (trim line) then parseNoteLines cfg rest
      else
        let notes := parseNotesFromLine cfg line in
        match notes with
        | [] => parseNoteLines cfg rest
        | _ => notes :: parseNoteLines cfg rest
        end
  end.

(** [validateNote] *)
Definition validateNote (cfg : ParseConfig) (note : string) (lineNumber position : nat)
  : ValidationResult :=
  let normalizedNote := toUpperCase (charAt0 note) ++ toLowerCase (slice1 note) in
  let unsupported_msg :=
    "Unsupported note '" ++ note ++ "' at line " ++ show_nat lineNumber
      ++ ", position " ++ show_nat position in
  if includes SUPPORTED_NOTES normalizedNote then mkResult true [] []
  else if String.eqb (toUpperCase note) "B" then
    if autoConvertB cfg then
      mkResult true []
        [mkWarning NOTE_CONVERSION "Note 'B' will be converted to 'Bb'"
           (Some lineNumber) (Some position)]
    else
      mkResult false
        [mkError UNSUPPORTED_NOTE unsupported_msg (Some lineNumber) (Some position)
           (Some ("Use Bb instead of B for 4-hole ocarinas" :: SUPPORTED_NOTES))] []
  else
    mkResult false
      [mkError UNSUPPORTED_NOTE unsupported_msg (Some lineNumber) (Some position)
         (Some ["Supported notes: " ++ join ", " SUPPORTED_NOTES])] [].

(** The loop of [validateNoteLine] that reports the B tokens to be converted
    ([position: i + 1]). *)
Fixpoint b_warnings (cfg : ParseConfig) (lineNumber position : nat) (rawNotes : list string)
  : list ValidationWarning :=
  match rawNotes with
  | [] => []
  | n :: rest =>
      ((if String.eqb (toUpperCase n) "B" && autoConvertB cfg then
         [mkWarning NOTE_CONVERSION "Note 'B' will be converted to 'Bb'"
            (Some lineNumber) (Some position)]
       else [])
      ++ b_warnings cfg lineNumber (S position) rest)%list
  end.

Definition not_conversion (w : ValidationWarning) : bool :=
  negb (WarningType_eqb (warn_type w) NOTE_CONVERSION).

(** The loop of [validateNoteLine] over the converted notes. *)
Fixpoint validate_notes_loop (cfg : ParseConfig) (lineNumber position : nat) (notes : list string)
  : list ValidationError * list ValidationWarning :=
  match notes with
  | [] => ([], [])
  | n :: rest =>
      let r := validateNote cfg n lineNumber position in
      let '(es, ws) := validate_notes_loop cfg lineNumber (S position) rest in
      ((errors r ++ es)%list, (filter not_conversion (warnings r) ++ ws)%list)
  end.

(** [validateNoteLine] *)
Definition validateNoteLine (cfg : ParseConfig) (line : string) (lineNumber : nat)
  : ValidationResult :=
  if is_empty (trim line) then
    mkResult true []
      [mkWarning EMPTY_LINE ("Line " ++ show_nat lineNumber ++ " is empty")
         (Some lineNumber) None]
  else
    let rawNotes := tokenize line in
    let w1 := b_warnings cfg lineNumber 1 rawNotes in
    let notes := parseNotesFromLine cfg line in
    let e1 :=
      if maxNotesPerLine cfg <? List.length notes then
        [mkError PARSING_ERROR
           ("Too many notes on line " ++ show_nat lineNumber ++ " ("
              ++ show_nat (List.length notes) ++ "). Maximum: "
              ++ show_nat (maxNotesPerLine cfg))
           (Some lineNumber) None (Some ["Split long lines into multiple shorter lines"])]
      else [] in
    let '(e2, w2) := validate_notes_loop cfg lineNumber 1 notes in
    mkResult (no_errors (e1 ++ e2)%list) (e1 ++ e2)%list (w1 ++ w2)%list.

(** The loop [for (let i = 1; i < lines.length; i++)] of [validateInput],
    started at the line after the title with line number [i + 1]. *)
Fixpoint validate_lines (cfg : ParseConfig) (lineNumber : nat) (ls : list string)
  : list ValidationError * list ValidationWarning :=
  match ls with
  | [] => ([], [])
  | l :: rest =>
      let r := validateNoteLine cfg l lineNumber in
      let '(es, ws) := validate_lines cfg (S lineNumber) rest in
      ((errors r ++ es)%list, (warnings r ++ ws)%list)
  end.

(** [validateInput] *)
Definition validateInput (cfg : ParseConfig) (input : string) : ValidationResult :=
  if is_empty (trim input) then
    mkResult false
      [mkError EMPTY_INPUT "Input cannot be empty" None None
         (Some ["Enter song notation or load an example song"])] []
  else
    let ls := preprocessInput input in
    let e1 :=
      if List.length ls <? 2 then
        [mkError PARSING_ERROR "Input must contain a title and at least one line of notes"
           None None (Some ["Add a title on the first line and notes on subsequent lines"])]
      else [] in
    let e2 :=
      if maxLines cfg <? List.length ls then
        [mkError PARSING_ERROR
           ("Too many lines (" ++ show_nat (List.length ls) ++ "). Maximum allowed: "
              ++ show_nat (maxLines cfg))
           None None (Some ["Split large songs into smaller sections"])]
      else [] in
    let '(e3, w3) := validate_lines cfg 2 (tl ls) in
    mkResult (no_errors (e1 ++ e2 ++ e3)%list) (e1 ++ e2 ++ e3)%list w3.

(** Outcome of [parseSong]: the song, or the [Error] it throws. *)
Inductive ParseOutcome :=
| Parsed (s : Song)
| ParsingFailed (message : string).

(** [parseSong]; [now] is the time read by [new Date()]. *)
Definition parseSong (cfg : ParseConfig) (now : nat) (input : string) : ParseOutcome :=
  let validation := validateInput cfg input in
  if negb (isValid validation) then
    ParsingFailed ("Parsing failed: " ++ join ", " (map err_message (errors validation)))
  else
    let ls := preprocessInput input in
    let title := extractTitle ls in
    let noteLines := parseNoteLines cfg (tl ls) in
    Parsed (mkSong title noteLines
              (mkMetadata input now (List.length (List.concat noteLines)))).

End NoteParser.

(* ------------------------------------------------------------------ *)
(** ** [FingeringEngine] *)

(** The result of a JavaScript call that may throw a [TypeError]. *)
Inductive JsResult (A : Type) :=
| Ok (a : A)
| ThrowsTypeError.
Arguments Ok {A} a.
Arguments ThrowsTypeError {A}.

Module FingeringEngine.
Import Js.

Record FingeringPattern := mkPattern {
  note : string;
  holes : list bool   (* [top-left, top-right, bottom-left, bottom-right] *)
}.

Definition FINGERING_PATTERNS : list (string * FingeringPattern) :=
  [("F", mkPattern "F" [true; true; true; true]);
   ("G", mkPattern "G" [true; false; true; true]);
   ("A", mkPattern "A" [true; true; true; false]);
   ("Bb", mkPattern "Bb" [true; false; true; false]);
   ("C", mkPattern "C" [false; false; true; true]);
   ("D", mkPattern "D" [false; false; true; false]);
   ("E", mkPattern "E" [false; true; false; false])].

Fixpoint lookup {A} (k : string) (m : list (string * A)) : option A :=
  match m with
  | [] => None
  | (k', v) :: rest => if String.eqb k k' then Some v else lookup k rest
  end.

(** [normalizeNote] *)
Definition normalizeNote (n : string) : string := trim n.

(** [isSupported] *)
Definition isSupported (n : string) : bool := includes SUPPORTED_NOTES (normalizeNote n).

(** [getPattern]; [null] is [None]. *)
Definition getPattern (n : string) : option FingeringPattern :=
  let normalizedNote := normalizeNote n in
  if negb (isSupported normalizedNote) then None
  else lookup normalizedNote FINGERING_PATTERNS.

(** [getPatterns] *)
Definition getPatterns (ns : list string) : list (option FingeringPattern) :=
  map getPattern ns.

(** The object literal [noteMap] of [getSuggestions]. *)
Definition noteMap : list (string * list string) :=
  [("B", ["Bb"; "A"; "C"]); ("Db", ["D"; "C"]); ("Eb", ["E"; "D"]);
   ("Gb", ["G"; "F"]); ("Ab", ["A"; "G"])].

(** Properties every object literal inherits from [Object.prototype]; none of
    their values is iterable. *)
Definition OBJECT_PROTOTYPE_KEYS : list string :=
  ["constructor"; "hasOwnProperty"; "isPrototypeOf"; "propertyIsEnumerable";
   "toLocaleString"; "toString"; "valueOf"; "__proto__"; "__defineGetter__";
   "__defineSetter__"; "__lookupGetter__"; "__lookupSetter__"].

(** [noteMap[note]]: an own property, an inherited one, or [undefined]. *)
Inductive PropertyLookup :=
| OwnProperty (v : list string)
| InheritedProperty
| MissingProperty.

Definition noteMap_get (k : string) : PropertyLookup :=
  match lookup k noteMap with
  | Some v => OwnProperty v
  | None => if includes OBJECT_PROTOTYPE_KEYS k then InheritedProperty else MissingProperty
  end.

(** [getSuggestions]; [suggestions.push(...noteMap[note])] throws a
    [TypeError] when the truthy value found is not iterable. *)
Definition getSuggestions (n : string) : JsResult (list string) :=
  let s1 := if String.eqb (toLowerCase n) "b" then ["Bb"] else [] in
  let fill s := match s with [] => SUPPORTED_NOTES | _ => s end in
  match noteMap_get n with
  | OwnProperty v => Ok (fill (s1 ++ v)%list)
  | InheritedProperty => ThrowsTypeError
  | MissingProperty => Ok (fill s1)
  end.

(** The loop of [validateNotes], from array index [i]. *)
Fixpoint validateNotes_from (i : nat) (ns : list string) : JsResult (list ValidationError) :=
  match ns with
  | [] => Ok []
  | n :: rest =>
      let normalizedNote := normalizeNote n in
      if negb (isSupported normalizedNote) then
        match getSuggestions normalizedNote with
        | ThrowsTypeError => ThrowsTypeError
        | Ok sug =>
            match validateNotes_from (S i) rest with
            | ThrowsTypeError => ThrowsTypeError
            | Ok es =>
                Ok (mkError UNSUPPORTED_NOTE
                      ("Note " ++ dq ++ n ++ dq ++ " is not supported by 4-hole ocarina")
                      None (Some i) (Some sug) :: es)
            end
        end
      else validateNotes_from (S i) rest
  end.

(** [validateNotes] *)
Definition validateNotes (ns : list string) : JsResult ValidationResult :=
  match validateNotes_from 0 ns with
  | Ok es => Ok (mkResult (no_errors es) es [])
  | ThrowsTypeError => ThrowsTypeError
  end.

End FingeringEngine.

(* ------------------------------------------------------------------ *)
(** ** [ChartRenderer.calculateLayout] *)

Module Layout.
Local Open Scope Q_scope.

Record Colors := mkColors {
  background : string; holeFilled : string; holeEmpty : string; text : string
}.

Record ChartConfig := mkChartConfig {
  canvasWidth : Q;
  canvasHeight : Q;
  holeRadius : Q;
  spacing : Q;
  colors : Colors
}.

Record Margins := mkMargins { top : Q; right : Q; bottom : Q; left : Q }.

Record LayoutInfo := mkLayout {
  totalWidth : Q;
  totalHeight : Q;
  lineHeight : Q;
  patternWidth : Q;
  patternHeight : Q;
  margins : Margins
}.

Definition of_nat (n : nat) : Q := inject_Z (Z.of_nat n).

(** [song.lines.length > 0 ? Math.max(...song.lines.map(line => line.length)) : 1] *)
Definition maxNotesPerLine (song_lines : list (list string)) : nat :=
  match song_lines with
  | [] => 1
  | l :: ls => fold_left Nat.max (map (@List.length string) ls) (List.length l)
  end.

Definition calculateLayout (cfg : ChartConfig) (song : NoteParser.Song) : LayoutInfo :=
  let sp := spacing cfg in
  let r := holeRadius cfg in
  let patternWidth := (r * 2 * 2) + sp in
  let patternHeight := (r * 2 * 2) + sp in
  let maxN := maxNotesPerLine (NoteParser.lines song) in
  let lineWidth := of_nat maxN * (patternWidth + sp * 2) in
  let lineHeight := patternHeight + sp * 3 in
  let margins := mkMargins (sp * 2) (sp * 2) (sp * 2) (sp * 2) in
  let totalWidth := lineWidth + left margins + right margins in
  let totalHeight :=
    of_nat (Nat.max (List.length (NoteParser.lines song)) 1) * lineHeight
      + top margins + bottom margins + sp * 2 in
  mkLayout totalWidth totalHeight lineHeight patternWidth patternHeight margins.

End Layout.

(* ------------------------------------------------------------------ *)
(** ** Export file names ([ChartRenderer.generateFilename] and
    [ExportManager.generateFilename]) *)

Module Filename.
Import Js.

(** The UTC fields of a [Date]. *)
Record Date := mkDate {
  year : nat; month : nat; day : nat;
  hours : nat; minutes : nat; seconds : nat; millis : nat
}.

Fixpoint zeros (n : nat) : string :=
  match n with O => EmptyString | S k => String "0"%char (zeros k) end.

(** [String(n).padStart(w, '0')] *)
Definition pad (w n : nat) : string :=
  let d := show_nat n in zeros (w - String.length d) ++ d.

(** [date.toISOString()]; years past 9999 use the expanded form [+YYYYYY]. *)
Definition toISOString (d : Date) : string :=
  (if year d <=? 9999 then pad 4 (year d) else "+" ++ pad 6 (year d))
  ++ "-" ++ pad 2 (month d) ++ "-" ++ pad 2 (day d)
  ++ "T" ++ pad 2 (hours d) ++ ":" ++ pad 2 (minutes d) ++ ":" ++ pad 2 (seconds d)
  ++ "." ++ pad 3 (millis d) ++ "Z".

Definition is_colon_or_hyphen (c : ascii) : bool :=
  Ascii.eqb c ":"%char || Ascii.eqb c "-"%char.

(** [new Date().toISOString().slice(0, 19).replace(/[:-]/g, '').toLowerCase()] *)
Definition timestamp (d : Date) : string :=
  toLowerCase
    (filter_chars (fun c => negb (is_colon_or_hyphen c))
       (String.substring 0 19 (toISOString d))).

(** [\w]: ASCII letters, digits and underscore. *)
Definition is_word (c : ascii) : bool :=
  let n := nat_of_ascii c in
  ((48 <=? n) && (n <=? 57)) || ((65 <=? n) && (n <=? 90))
  || ((97 <=? n) && (n <=? 122)) || (n =? 95).

Definition is_hyphen (c : ascii) : bool := Ascii.eqb c "-"%char.

(** [s.replace(/P+/g, '-')] for a character class [P]. *)
Fixpoint collapse_runs (p : ascii -> bool) (in_run : bool) (s : string) : string :=
  match s with
  | EmptyString => EmptyString
  | String c t =>
      if p c then
        if in_run then collapse_runs p true t else String "-"%char (collapse_runs p true t)
      else String c (collapse_runs p false t)
  end.

(** [s.replace(/^-|-$/g, '')] *)
Definition strip_hyphens (s : string) : string :=
  let s' := match s with
            | String c t => if is_hyphen c then t else s
            | EmptyString => s
            end in
  let n := String.length s' in
  match String.get (n - 1) s' with
  | Some c => if (0 <? n) && is_hyphen c then String.substring 0 (n - 1) s' else s'
  | None => s'
  end.

(** The cleaning chain shared by both [generateFilename]s, up to [.substring]. *)
Definition clean (title : string) : string :=
  toLowerCase
    (strip_hyphens
       (collapse_runs is_hyphen false
          (collapse_runs is_ws false
             (filter_chars (fun c => is_word c || is_ws c || is_hyphen c) (trim title))))).

(** [ChartRenderer.generateFilename]; [now] is the time of [new Date()]. *)
Definition renderer_generateFilename (songTitle : string) (now : Date) : string :=
  let cleanTitle := String.substring 0 50 (clean songTitle) in
  let ts := timestamp now in
  if negb (is_empty cleanTitle) then cleanTitle ++ "-" ++ ts ++ ".png"
  else "ocarina-chart-" ++ ts ++ ".png".

Record ExportConfig := mkExportConfig {
  defaultFormat : string;
  quality : Q;
  includeTimestamp : bool;
  maxFilenameLength : nat
}.

Definition DEFAULT_EXPORT_CONFIG : ExportConfig := mkExportConfig "png" 1 true 50.

(** [ExportManager.generateFilename] on a string title. *)
Definition export_generateFilename (cfg : ExportConfig) (songTitle format : string)
  (now : Date) : string :=
  let cleanTitle := String.substring 0 (maxFilenameLength cfg) (clean songTitle) in
  let filename := if is_empty cleanTitle then "ocarina-chart" else cleanTitle in
  let filename := if includeTimestamp cfg then filename ++ "-" ++ timestamp now else filename in
  filename ++ "." ++ format.

End Filename.


(* ------------------------------------------------------------------ *)
(** ** [ChartRenderer] drawing ([renderChart] and the methods it calls) *)

Module Render.
Import Js Layout FingeringEngine.
Local Open Scope Q_scope.

(** Coordinates and sizes are computed here as exact rationals, whereas
    JavaScript rounds each operation to a double; the drawn positions are
    therefore the unrounded ones, and the properties proved below about the
    drawing are about which commands are issued, not about their values. *)

(** The calls made on the canvas and its 2D context, in order. The font
    string [`${bold ? 'bold ' : ''}${size}px Arial, sans-serif`] is kept as its
    two parameters, and [arc(cx, cy, r, 0, 2 * Math.PI)] as a full circle. *)
Inductive Cmd :=
| SetCanvasSize (w h : Q)          (* canvas.width, canvas.height *)
| SetStyleSize (w h : Q)           (* canvas.style.width, canvas.style.height *)
| Scale (sx sy : Q)
| SetFillStyle (c : string)
| FillRect (x y w h : Q)
| SetFont (bold : bool) (size : Q)
| SetTextAlign (a : string)
| SetTextBaseline (b : string)
| FillText (t : string) (x y : Q)
| BeginPath
| ArcFull (cx cy r : Q)
| Fill
| SetStrokeStyle (c : string)
| SetLineWidth (w : Q)
| Stroke.

(** The commands issued, and whether a [TypeError] was thrown after them. *)
Definition Exec : Type := (list Cmd * bool)%type.
Definition seq (e1 e2 : Exec) : Exec :=
  if snd e1 then e1 else ((fst e1 ++ fst e2)%list, snd e2).













(** The result of [hexToRgb]. *)
Record RGB := mkRGB { red : nat; green : nat; blue : nat }.

(** A character of the class [[a-f\d]] under the [i] flag, with its value. *)
Definition hex_val (c : ascii) : option nat :=
  let n := nat_of_ascii c in
  (if (48 <=? n) && (n <=? 57) then Some (n - 48)
   else if (97 <=? n) && (n <=? 102) then Some (n - 87)
   else if (65 <=? n) && (n <=? 70) then Some (n - 55)
   else None)%nat.

(** [parseInt(h, 16)] on two characters of the class. *)
Definition hex_pair (c1 c2 : ascii) : option nat :=
  match hex_val c1, hex_val c2 with
  | Some a, Some b => Some (16 * a + b)%nat
  | _, _ => None
  end.

(** [hexToRgb]: [/^#?([a-f\d]{2})([a-f\d]{2})([a-f\d]{2})$/i]. A leading
    ['#'] cannot be matched by the class, so it is the optional prefix. *)
Definition hexToRgb (hex : string) : option RGB :=
  let body := match hex with
              | String c t => if Ascii.eqb c "#"%char then t else hex
              | EmptyString => hex
              end in
  match body with
  | String a1 (String a2 (String b1 (String b2 (String c1 (String c2 EmptyString))))) =>
      match hex_pair a1 a2, hex_pair b1 b2, hex_pair c1 c2 with
      | Some r, Some g, Some b => Some (mkRGB r g b)
      | _, _, _ => None
      end
  | _ => None
  end.

(** One RGBA pixel of [getImageData(...).data], whose length is always a
    multiple of 4. *)
Record Pixel := mkPixel { px_r : nat; px_g : nat; px_b : nat; px_a : nat }.

(** [hasContent] on the pixels of the canvas. *)
Definition hasContent (cfg : ChartConfig) (data : list Pixel) : bool :=
  existsb (fun p =>
             if 0 <? px_a p then
               match hexToRgb (background (colors cfg)) with
               | Some bg => negb ((px_r p =? red bg) && (px_g p =? green bg) && (px_b p =? blue bg))
               | None => false
               end
             else false)%nat data.

End Render.

(* ------------------------------------------------------------------ *)
(** ** Dirty regions of [PerformanceOptimizedRenderer] *)

Module Regions.
Local Open Scope Q_scope.

Record DirtyRegion := mkRegion { rx : Q; ry : Q; rwidth : Q; rheight : Q }.

Definition Qltb (a b : Q) : bool := negb (Qle_bool b a).

(** [regionsIntersect] *)
Definition regionsIntersect (region1 region2 : DirtyRegion) : bool :=
  negb (Qltb (rx region1 + rwidth region1) (rx region2)
        || Qltb (rx region2 + rwidth region2) (rx region1)
        || Qltb (ry region1 + rheight region1) (ry region2)
        || Qltb (ry region2 + rheight region2) (ry region1)).

(** [canMergeRegions], with [threshold = 10]. *)
Definition canMergeRegions (region1 region2 : DirtyRegion) : bool :=
  (Qle_bool (Qabs (rx region1 - rx region2)) 10 && Qle_bool (Qabs (ry region1 - ry region2)) 10)
  || regionsIntersect region1 region2.

End Regions.

(* ------------------------------------------------------------------ *)
(** ** [PreviewController.updatePreview] *)

Module Preview.
Import Js FingeringEngine.






End Preview.

(* ------------------------------------------------------------------ *)
(** ** [ExportManager.validateFilename] and its listeners *)

Module ExportManager.
Import Js Filename.

(** The class of [invalidChars]: [<], [>], [:], the double quote, [/],
    backslash, [|], [?] and [*]. *)
Definition is_invalid_char (c : ascii) : bool :=
  existsb (Nat.eqb (nat_of_ascii c)) [60; 62; 58; 34; 47; 92; 124; 63; 42].

Record FilenameCheck := mkCheck { valid : bool; error : option string }.

(** [regex.test(s)] for a one-character class. *)
Fixpoint exists_char (p : ascii -> bool) (s : string) : bool :=
  match s with
  | EmptyString => false
  | String c t => p c || exists_char p t
  end.

(** [validateFilename] *)
Definition validateFilename (cfg : ExportConfig) (filename : string) : FilenameCheck :=
  if is_empty (trim filename) then mkCheck false (Some "Filename cannot be empty")
  else if maxFilenameLength cfg + 10 <? String.length filename then
    mkCheck false (Some ("Filename too long (max " ++ show_nat (maxFilenameLength cfg)
                         ++ " characters)"))
  else if exists_char is_invalid_char filename then
    mkCheck false (Some "Filename contains invalid characters")
  else mkCheck true None.

(** The listener array; a listener is known by its reference, here a number. *)
Definition Listeners := list nat.

(** [subscribe]: pushes the listener and returns the unsubscribe closure. *)
Definition subscribe (listeners : Listeners) (listener : nat) : Listeners :=
  (listeners ++ [listener])%list.

(** [this.listeners.indexOf(listener)] *)
Fixpoint indexOf (l : Listeners) (x : nat) : option nat :=
  match l with
  | [] => None
  | y :: ys => if Nat.eqb x y then Some 0 else option_map S (indexOf ys x)
  end.

(** [splice(index, 1)] *)
Fixpoint remove_at (l : Listeners) (i : nat) : Listeners :=
  match l, i with
  | [], _ => []
  | _ :: ys, O => ys
  | y :: ys, S k => y :: remove_at ys k
  end.

(** The closure returned by [subscribe], run on the current array. *)
Definition unsubscribe (listeners : Listeners) (listener : nat) : Listeners :=
  match indexOf listeners listener with
  | Some index => remove_at listeners index
  | None => listeners
  end.

End ExportManager.

(* ------------------------------------------------------------------ *)
(** ** Reference definitions used to state the properties *)

Module Ref.
Import Js Tok.

(** The non-empty maximal runs of non-separator characters of a line. *)
Fixpoint words_go (cur : string) (s : string) : list string :=
  match s with
  | EmptyString => if is_empty cur then [] else [cur]
  | String c t =>
      if is_sep c then ((if is_empty cur then [] else [cur]) ++ words_go EmptyString t)%list
      else words_go (snoc cur c) t
  end.

Definition words (s : string) : list string := words_go EmptyString s.

Fixpoint all_chars (p : ascii -> bool) (s : string) : bool :=
  match s with
  | EmptyString => true
  | String c t => p c && all_chars p t
  end.

(** Suggestions per [validateNotes] error, case by case: ["B"] gets both the
    [Bb] hint and its table entry, ["b"] the hint only, the other table keys
    their entry, and everything else the full supported list. *)
Definition amended_suggestions (t : string) : list string :=
  if String.eqb t "B" then ["Bb"; "Bb"; "A"; "C"]
  else if String.eqb t "b" then ["Bb"]
  else match FingeringEngine.lookup t FingeringEngine.noteMap with
       | Some v => v
       | None => SUPPORTED_NOTES
       end.

(** One [(position, suggestions)] pair per unsupported entry, 0-based. *)
Fixpoint expected_errors (i : nat) (ns : list string)
  : list (option nat * option (list string)) :=
  match ns with
  | [] => []
  | n :: rest =>
      if includes SUPPORTED_NOTES (trim n) then expected_errors (S i) rest
      else (Some i, Some (amended_suggestions (trim n))) :: expected_errors (S i) rest
  end.

Definition is_digit (c : ascii) : bool :=
  let n := nat_of_ascii c in (48 <=? n) && (n <=? 57).

(** The UTC fields of a date as [toISOString] can print them in the short form. *)
Definition date_fields_ok (d : Filename.Date) : Prop :=
  Filename.year d <= 9999 /\ 1 <= Filename.month d <= 12 /\ 1 <= Filename.day d <= 31
  /\ Filename.hours d <= 23 /\ Filename.minutes d <= 59 /\ Filename.seconds d <= 59
  /\ Filename.millis d <= 999.

(** [YYYYMMDD] then [t] then [HHMMSS]. *)
Definition compact_stamp (d : Filename.Date) : string :=
  Filename.pad 4 (Filename.year d) ++ Filename.pad 2 (Filename.month d)
  ++ Filename.pad 2 (Filename.day d) ++ "t" ++ Filename.pad 2 (Filename.hours d)
  ++ Filename.pad 2 (Filename.minutes d) ++ Filename.pad 2 (Filename.seconds d).

(** [n] line feeds. *)
Fixpoint newlines (n : nat) : string :=
  match n with O => EmptyString | S k => String (ascii_of_nat 10) (newlines k) end.

(** Every note of a song is one of the supported names, in canonical case. *)
Definition canonical_lines (ls : list (list string)) : Prop :=
  Forall (fun l => Forall (fun n => In n SUPPORTED_NOTES) l) ls.

(** Strings with no separator character. *)
Definition no_sep (s : string) : bool := all_chars (fun c => negb (is_sep c)) s.

(** [convertNotes] maps each note separately. *)
Definition convert_one (cfg : NoteParser.ParseConfig) (n : string) : string :=
  if String.eqb (toUpperCase n) "B" && NoteParser.autoConvertB cfg then "Bb" else n.

(** The characters kept by [.replace(/[:-]/g, '')]. *)
Definition keep_stamp_char (c : ascii) : bool := negb (Filename.is_colon_or_hyphen c).

(** The characters removed by [.replace(/[^\w\s-]/g, '')]. *)
Definition special (c : ascii) : bool :=
  negb (Filename.is_word c || is_ws c || Filename.is_hyphen c).

(** A sample date: 2026-10-16T09:04:05.007Z. *)
Definition d0 : Filename.Date := Filename.mkDate 2026 10 16 9 4 5 7.

Definition nonblank (l : string) : bool := negb (is_empty (trim l)).
Definition nonnil (ns : list string) : bool := match ns with [] => false | _ => true end.

Definition opt_nat_eqb (a b : option nat) : bool :=
  match a, b with
  | Some x, Some y => Nat.eqb x y
  | None, None => true
  | _, _ => false
  end.

(** A NoteConversion warning at line [ln], token position [p]. *)
Definition conversion_at (ln p : nat) (w : ValidationWarning) : bool :=
  WarningType_eqb (warn_type w) NOTE_CONVERSION
  && opt_nat_eqb (warn_line w) (Some ln) && opt_nat_eqb (warn_position w) (Some p).

End Ref.

Module Ref2.
Import Js.
Definition count_upper_B (ns : list string) : nat :=
  List.length (filter (fun n => String.eqb (toUpperCase n) "B") ns).
Fixpoint count_char (c : ascii) (s : string) : nat :=
  match s with
  | EmptyString => 0
  | String d t => (if Ascii.eqb d c then 1 else 0) + count_char c t
  end.
Definition no_lf (c : ascii) : bool := negb (Ascii.eqb c (ascii_of_nat 10)).
(** The 0-based indices of the [null] entries of [getPatterns]. *)
Fixpoint none_positions (i : nat) (ps : list (option FingeringEngine.FingeringPattern)) : list nat :=
  match ps with
  | [] => []
  | None :: rest => i :: none_positions (S i) rest
  | Some _ :: rest => none_positions (S i) rest
  end.
Definition infix (t s : string) : Prop := exists a b, s = a ++ t ++ b.
End Ref2.

Module Ref4.
Import Render.

End Ref4.

Module Ref5.
Import Js.
(** Lower-case hexadecimal digit of [n < 16], and two-digit form of a byte. *)
Definition hex_digit (n : nat) : ascii := ascii_of_nat (if n <? 10 then 48 + n else 87 + n).
Definition hex2 (n : nat) : string :=
  String (hex_digit (n / 16)) (String (hex_digit (n mod 16)) EmptyString).
(** Both digit pairs of a byte, in lower and in upper case, read back as the
    byte, and the first digit is not ['#'] in either case. *)
Definition byte_ok (n : nat) : bool :=
  match Render.hex_pair (hex_digit (n / 16)) (hex_digit (n mod 16)),
        Render.hex_pair (upper_char (hex_digit (n / 16))) (upper_char (hex_digit (n mod 16))) with
  | Some a, Some b => Nat.eqb a n && Nat.eqb b n && negb (Ascii.eqb (hex_digit (n / 16)) "#"%char)
                      && negb (Ascii.eqb (upper_char (hex_digit (n / 16))) "#"%char)
  | _, _ => false
  end.
(** Characters that a cleaned title can contain: [\w] and the hyphen. *)
Definition slug_char (c : ascii) : bool := Filename.is_word c || Filename.is_hyphen c.
End Ref5.


(* ================================================================== *)
(** * Properties *)

(* ------------------------------------------------------------------ *)
(** ** Fingering table *)

Module FingeringFacts.
Import FingeringEngine.

(** C1: each supported note's pattern has the four-hole vector of the
    fingering table, and two distinct supported notes never share a vector. *)
Theorem getPattern_canonical_and_distinct :
  (forall n h,
     In (n, h) [("F", [true; true; true; true]); ("G", [true; false; true; true]);
                ("A", [true; true; true; false]); ("Bb", [true; false; true; false]);
                ("C", [false; false; true; true]); ("D", [false; false; true; false]);
                ("E", [false; true; false; false])] ->
     exists p, getPattern n = Some p /\ holes p = h)
  /\ (forall n1 n2 p1 p2,
        In n1 SUPPORTED_NOTES -> In n2 SUPPORTED_NOTES -> n1 <> n2 ->
        getPattern n1 = Some p1 -> getPattern n2 = Some p2 -> holes p1 <> holes p2).
Proof.
  split.
  - intros n h Hin; simpl in Hin;
      repeat (destruct Hin as [Hin | Hin]; [injection Hin as <- <-; eexists; split; reflexivity |]);
      destruct Hin.
  - intros n1 n2 p1 p2 H1 H2 Hne E1 E2; simpl in H1, H2;
      repeat (destruct H1 as [<- | H1]); try contradiction;
      repeat (destruct H2 as [<- | H2]); try contradiction;
      try (exfalso; apply Hne; reflexivity);
      vm_compute in E1, E2; injection E1 as <-; injection E2 as <-; discriminate.
Qed.

End FingeringFacts.

(* ------------------------------------------------------------------ *)
(** ** Layout geometry *)

Module LayoutFacts.
Import Layout.
Local Open Scope Q_scope.

Lemma fold_max_list_max (l : list nat) (acc : nat) :
  fold_left Nat.max l acc = Nat.max acc (list_max l).
Proof.
  revert acc; induction l as [| x l IH]; intros acc; simpl.
  - lia.
  - rewrite IH. lia.
Qed.

Lemma maxNotesPerLine_spec (ls : list (list string)) :
  maxNotesPerLine ls =
  match ls with [] => 1%nat | _ => list_max (map (@List.length string) ls) end.
Proof.
  destruct ls as [| l ls]; [reflexivity |].
  simpl. rewrite fold_max_list_max. reflexivity.
Qed.

Lemma of_nat_lt (m n : nat) : (m < n)%nat -> of_nat m < of_nat n.
Proof. intros H. unfold of_nat. rewrite <- Zlt_Qlt. lia. Qed.

(** C5: the fields of [calculateLayout] are the documented formulas, with
    the maximum line length (1 for a song without lines). *)
Theorem calculateLayout_formulas (cfg : ChartConfig) (song : NoteParser.Song) :
  let L := calculateLayout cfg song in
  let r := holeRadius cfg in
  let s := spacing cfg in
  let ls := NoteParser.lines song in
  let maxN := match ls with [] => 1%nat | _ => list_max (map (@List.length string) ls) end in
  patternWidth L == r * 4 + s
  /\ patternHeight L == r * 4 + s
  /\ lineHeight L == patternHeight L + s * 3
  /\ top (margins L) == s * 2 /\ right (margins L) == s * 2
  /\ bottom (margins L) == s * 2 /\ left (margins L) == s * 2
  /\ totalWidth L == of_nat maxN * (patternWidth L + s * 2) + left (margins L) + right (margins L)
  /\ totalHeight L ==
     of_nat (Nat.max (List.length ls) 1) * lineHeight L + top (margins L) + bottom (margins L) + s * 2.
Proof.
  cbv zeta. unfold calculateLayout; simpl.
  rewrite maxNotesPerLine_spec.
  repeat split; try reflexivity; ring.
Qed.

(** Counterexample to C6: [totalHeight] does not grow with the number of
    notes on the longest line. *)
Lemma calculateLayout_height_ignores_line_length :
  let cfg := mkChartConfig 800 600 12 8 (mkColors "#fff" "#000" "#fff" "#000") in
  let s1 := NoteParser.mkSong "t" [["F"]] (NoteParser.mkMetadata "t" 0 1) in
  let s2 := NoteParser.mkSong "t" [["F"; "G"]] (NoteParser.mkMetadata "t" 0 2) in
  (maxNotesPerLine (NoteParser.lines s1) < maxNotesPerLine (NoteParser.lines s2))%nat
  /\ List.length (NoteParser.lines s1) = List.length (NoteParser.lines s2)
  /\ ~ (totalHeight (calculateLayout cfg s1) < totalHeight (calculateLayout cfg s2)).
Proof.
  cbv zeta. split; [| split].
  - vm_compute. lia.
  - reflexivity.
  - vm_compute. discriminate.
Qed.

Lemma of_nat_le (m n : nat) : (m <= n)%nat -> of_nat m <= of_nat n.
Proof. intros H. unfold of_nat. rewrite <- Zle_Qle. lia. Qed.

(** C6 (amended): [calculateLayout] depends on the song only through its
    number of lines and the length of its longest line, and [totalHeight]
    only through the number of lines; with spacing and the song fixed, a
    larger [holeRadius] never gives a smaller [totalWidth] or [totalHeight];
    with the configuration fixed and [holeRadius] and [spacing] not
    negative, a longer longest line never gives a smaller [totalWidth]. *)
Theorem calculateLayout_monotone (cfg : ChartConfig) (song : NoteParser.Song) :
  (forall song',
     List.length (NoteParser.lines song) = List.length (NoteParser.lines song') ->
     maxNotesPerLine (NoteParser.lines song) = maxNotesPerLine (NoteParser.lines song') ->
     calculateLayout cfg song = calculateLayout cfg song')
  /\ (forall song',
       List.length (NoteParser.lines song) = List.length (NoteParser.lines song') ->
       totalHeight (calculateLayout cfg song) = totalHeight (calculateLayout cfg song'))
  /\ (forall cfg',
       spacing cfg' == spacing cfg -> holeRadius cfg <= holeRadius cfg' ->
       totalHeight (calculateLayout cfg song) <= totalHeight (calculateLayout cfg' song)
       /\ totalWidth (calculateLayout cfg song) <= totalWidth (calculateLayout cfg' song))
  /\ (forall song',
       0 <= holeRadius cfg -> 0 <= spacing cfg ->
       (maxNotesPerLine (NoteParser.lines song) <= maxNotesPerLine (NoteParser.lines song'))%nat ->
       totalWidth (calculateLayout cfg song) <= totalWidth (calculateLayout cfg song')).
Proof.
  split; [| split; [| split]].
  - intros song' Hn Hm. unfold calculateLayout. rewrite Hn, Hm. reflexivity.
  - intros song' Hn. unfold calculateLayout; simpl. rewrite Hn. reflexivity.
  - intros cfg' Hs Hr. unfold calculateLayout; simpl.
    set (r := holeRadius cfg) in *. set (r' := holeRadius cfg') in *.
    set (s := spacing cfg) in *. rewrite Hs.
    set (m := maxNotesPerLine (NoteParser.lines song)).
    set (k := Nat.max (List.length (NoteParser.lines song)) 1).
    assert (Hk : 0 <= of_nat k) by (apply (of_nat_le 0); lia).
    assert (Hm : 0 <= of_nat m) by (apply (of_nat_le 0); lia).
    split.
    + apply Qplus_le_l. apply Qplus_le_l. apply Qplus_le_l.
      rewrite !(Qmult_comm (of_nat k)). apply Qmult_le_compat_r; [| exact Hk].
      apply Qplus_le_l. apply Qplus_le_l. apply Qmult_le_compat_r; [| discriminate].
      apply Qmult_le_compat_r; [exact Hr | discriminate].
    + apply Qplus_le_l. apply Qplus_le_l.
      rewrite !(Qmult_comm (of_nat m)). apply Qmult_le_compat_r; [| exact Hm].
      apply Qplus_le_l. apply Qplus_le_l. apply Qmult_le_compat_r; [| discriminate].
      apply Qmult_le_compat_r; [exact Hr | discriminate].
  - intros song' Hr Hs Hm. unfold calculateLayout; simpl.
    apply Qplus_le_l. apply Qplus_le_l.
    apply Qmult_le_compat_r; [apply of_nat_le; exact Hm |].
    set (r := holeRadius cfg) in *. set (s := spacing cfg) in *.
    setoid_replace (r * 2 * 2 + s + s * 2) with (r * 4 + s * 3) by ring. lra.
Qed.

Lemma calculateLayout_monotone_witness :
  let cfg := mkChartConfig 800 600 12 8 (mkColors "#fff" "#000" "#fff" "#000") in
  let cfg' := mkChartConfig 800 600 16 8 (mkColors "#fff" "#000" "#fff" "#000") in
  let s1 := NoteParser.mkSong "t" [["F"]; ["G"; "A"]] (NoteParser.mkMetadata "t" 0 3) in
  let s2 := NoteParser.mkSong "u" [["C"; "D"]; []] (NoteParser.mkMetadata "u" 0 2) in
  let s3 := NoteParser.mkSong "t" [["F"; "G"; "A"]; ["Bb"]] (NoteParser.mkMetadata "t" 0 4) in
  calculateLayout cfg s1 = calculateLayout cfg s2
  /\ totalHeight (calculateLayout cfg s1) = totalHeight (calculateLayout cfg s3)
  /\ totalHeight (calculateLayout cfg s1) <= totalHeight (calculateLayout cfg' s1)
  /\ totalWidth (calculateLayout cfg s1) <= totalWidth (calculateLayout cfg s3).
Proof.
  cbv zeta.
  destruct (calculateLayout_monotone
              (mkChartConfig 800 600 12 8 (mkColors "#fff" "#000" "#fff" "#000"))
              (NoteParser.mkSong "t" [["F"]; ["G"; "A"]] (NoteParser.mkMetadata "t" 0 3)))
    as (E & Hh & Hr & Hw).
  split; [apply E; reflexivity |].
  split; [apply Hh; reflexivity |].
  split; [apply (Hr (mkChartConfig 800 600 16 8 (mkColors "#fff" "#000" "#fff" "#000")));
          vm_compute; [reflexivity | discriminate] |].
  apply Hw; [vm_compute; discriminate | vm_compute; discriminate | vm_compute; lia].
Defined.

End LayoutFacts.

(* ------------------------------------------------------------------ *)
(** ** String lemmas *)

Module StrFacts.
Import Js Tok Ref.

Lemma append_empty_r (s : string) : s ++ EmptyString = s.
Proof. induction s as [| c s IH]; simpl; [reflexivity | rewrite IH; reflexivity]. Qed.

Lemma append_assoc (a b c : string) : (a ++ b) ++ c = a ++ (b ++ c).
Proof. induction a as [| x a IH]; simpl; [reflexivity | rewrite IH; reflexivity]. Qed.

Lemma length_append (a b : string) : String.length (a ++ b) = String.length a + String.length b.
Proof. induction a as [| x a IH]; simpl; [reflexivity | rewrite IH; reflexivity]. Qed.

Lemma substring_prefix (a b : string) :
  String.substring 0 (String.length a) (a ++ b) = a.
Proof.
  induction a as [| x a IH]; simpl; [destruct b; reflexivity | rewrite IH; reflexivity].
Qed.

Lemma filter_chars_append (p : ascii -> bool) (a b : string) :
  filter_chars p (a ++ b) = filter_chars p a ++ filter_chars p b.
Proof.
  induction a as [| x a IH]; simpl; [reflexivity |].
  destruct (p x); simpl; rewrite IH; reflexivity.
Qed.

Lemma map_chars_append (f : ascii -> ascii) (a b : string) :
  map_chars f (a ++ b) = map_chars f a ++ map_chars f b.
Proof. induction a as [| x a IH]; simpl; [reflexivity | rewrite IH; reflexivity]. Qed.

Lemma filter_chars_all (p : ascii -> bool) (s : string) :
  all_chars p s = true -> filter_chars p s = s.
Proof.
  induction s as [| c s IH]; simpl; [reflexivity |].
  intros H. apply andb_true_iff in H as [H1 H2]. rewrite H1, IH by exact H2. reflexivity.
Qed.

Lemma map_chars_fix (f : ascii -> ascii) (p : ascii -> bool) (s : string) :
  (forall c, p c = true -> f c = c) -> all_chars p s = true -> map_chars f s = s.
Proof.
  intros Hf. induction s as [| c s IH]; simpl; [reflexivity |].
  intros H. apply andb_true_iff in H as [H1 H2]. rewrite Hf, IH by assumption. reflexivity.
Qed.

Lemma all_chars_append (p : ascii -> bool) (a b : string) :
  all_chars p (a ++ b) = all_chars p a && all_chars p b.
Proof.
  induction a as [| x a IH]; simpl; [reflexivity |]. rewrite IH, andb_assoc. reflexivity.
Qed.

Lemma all_chars_impl (p q : ascii -> bool) (s : string) :
  (forall c, p c = true -> q c = true) -> all_chars p s = true -> all_chars q s = true.
Proof.
  intros Hpq. induction s as [| c s IH]; simpl; [reflexivity |].
  intros H. apply andb_true_iff in H as [H1 H2]. rewrite Hpq, IH by assumption. reflexivity.
Qed.

(** [trim] *)

Lemma rtrim_cons (c : ascii) (t : string) :
  rtrim (String c t) =
  match rtrim t with
  | EmptyString => if is_ws c then EmptyString else String c EmptyString
  | _ => String c (rtrim t)
  end.
Proof. reflexivity. Qed.

Lemma rtrim_idem (s : string) : rtrim (rtrim s) = rtrim s.
Proof.
  induction s as [| c t IH]; [reflexivity |].
  rewrite (rtrim_cons c t). destruct (rtrim t) as [| c' t''] eqn:E.
  - destruct (is_ws c) eqn:W; [reflexivity |]. rewrite rtrim_cons. simpl. rewrite W. reflexivity.
  - rewrite rtrim_cons, IH. reflexivity.
Qed.

Lemma rtrim_head (c : ascii) (t : string) :
  is_ws c = false -> exists t', rtrim (String c t) = String c t'.
Proof.
  intros W. simpl. destruct (rtrim t); [rewrite W |]; eexists; reflexivity.
Qed.

Lemma ltrim_shape (s : string) :
  ltrim s = EmptyString \/ exists c t, ltrim s = String c t /\ is_ws c = false.
Proof.
  induction s as [| c t IH]; simpl; [left; reflexivity |].
  destruct (is_ws c) eqn:W; [exact IH | right; exists c, t; split; [reflexivity | exact W]].
Qed.

Lemma trim_idem (s : string) : trim (trim s) = trim s.
Proof.
  unfold trim.
  destruct (ltrim_shape s) as [E | (c & t & E & W)]; rewrite E.
  - reflexivity.
  - destruct (rtrim_head c t W) as [t' E']. rewrite E'. simpl (ltrim (String c t')).
    rewrite W, <- E'. apply rtrim_idem.
Qed.

Lemma ltrim_no_ws (s : string) : all_chars (fun c => negb (is_ws c)) s = true -> ltrim s = s.
Proof.
  destruct s as [| c t]; simpl; [reflexivity |].
  intros H. apply andb_true_iff in H as [H _]. destruct (is_ws c); [discriminate | reflexivity].
Qed.

Lemma rtrim_no_ws (s : string) : all_chars (fun c => negb (is_ws c)) s = true -> rtrim s = s.
Proof.
  induction s as [| c t IH]; simpl; [reflexivity |].
  intros H. apply andb_true_iff in H as [H1 H2]. rewrite IH by exact H2.
  destruct t; [| reflexivity]. destruct (is_ws c); [discriminate | reflexivity].
Qed.

Lemma trim_no_ws (s : string) : all_chars (fun c => negb (is_ws c)) s = true -> trim s = s.
Proof. intros H. unfold trim. rewrite ltrim_no_ws by exact H. apply rtrim_no_ws, H. Qed.

End StrFacts.

(* ------------------------------------------------------------------ *)
(** ** Tokenization *)

Module TokFacts.
Import Js Tok Ref StrFacts.

Lemma no_sep_snoc (s : string) (c : ascii) :
  no_sep s = true -> is_sep c = false -> no_sep (snoc s c) = true.
Proof.
  intros H1 H2. unfold no_sep, snoc in *. rewrite all_chars_append, H1. simpl. rewrite H2. reflexivity.
Qed.

Lemma split_go_pieces (cur : string) (b : bool) (s : string) :
  no_sep cur = true -> Forall (fun p => no_sep p = true) (split_go cur b s).
Proof.
  revert cur b; induction s as [| c t IH]; intros cur b H; simpl.
  - constructor; [exact H | constructor].
  - destruct (is_sep c) eqn:S.
    + destruct b; [apply IH; exact H |]. constructor; [exact H | apply IH; reflexivity].
    + apply IH, no_sep_snoc; assumption.
Qed.

Lemma no_sep_no_ws (s : string) : no_sep s = true -> all_chars (fun c => negb (is_ws c)) s = true.
Proof.
  apply all_chars_impl. intros c. unfold is_sep. destruct (is_ws c); simpl; [discriminate | auto].
Qed.

Lemma filter_split_go (cur : string) (b : bool) (s : string) :
  (b = true -> cur = EmptyString) ->
  filter (fun n => negb (is_empty n)) (split_go cur b s) = words_go cur s.
Proof.
  revert cur b; induction s as [| c t IH]; intros cur b Hb; simpl.
  - destruct cur; reflexivity.
  - destruct (is_sep c) eqn:S.
    + destruct b.
      * rewrite (Hb eq_refl). simpl. apply IH. reflexivity.
      * simpl. rewrite IH by reflexivity. destruct cur; reflexivity.
    + apply IH. discriminate.
Qed.

(** [tokenize] yields the maximal runs of non-separator characters. *)
Lemma tokenize_words (line : string) : tokenize line = words line.
Proof.
  unfold tokenize, words, split_seps.
  rewrite map_ext_Forall with (g := fun x => x).
  - rewrite map_id. apply filter_split_go. discriminate.
  - eapply Forall_impl; [| apply split_go_pieces; reflexivity].
    intros p Hp. simpl. apply trim_no_ws, no_sep_no_ws, Hp.
Qed.

Lemma words_go_seps (r s : string) :
  all_chars is_sep r = true -> words_go EmptyString (r ++ s) = words_go EmptyString s.
Proof.
  induction r as [| c r IH]; simpl; [reflexivity |].
  intros H. apply andb_true_iff in H as [H1 H2]. rewrite H1. simpl. apply IH, H2.
Qed.

Lemma words_go_run (cur r s : string) :
  r <> EmptyString -> all_chars is_sep r = true ->
  words_go cur (r ++ s) = words_go cur (String " "%char s).
Proof.
  destruct r as [| c r]; [contradiction |]. intros _ H. simpl in H |- *.
  apply andb_true_iff in H as [H1 H2]. rewrite H1. rewrite words_go_seps by exact H2.
  reflexivity.
Qed.

Lemma words_go_prefix (x y : string) :
  (forall cur, words_go cur x = words_go cur y) ->
  forall s1 cur, words_go cur (s1 ++ x) = words_go cur (s1 ++ y).
Proof.
  intros Hxy s1. induction s1 as [| c s1 IH]; intros cur; simpl; [apply Hxy |].
  destruct (is_sep c); [rewrite IH |]; apply IH || reflexivity.
Qed.

Lemma convertNotes_fst (cfg : NoteParser.ParseConfig) (ns : list string) :
  fst (NoteParser.convertNotes cfg ns) = map (convert_one cfg) ns.
Proof.
  induction ns as [| n ns IH]; simpl; [reflexivity |].
  destruct (NoteParser.convertNotes cfg ns) as [ns' ws'] eqn:E. simpl in IH.
  unfold convert_one. destruct (_ && _); simpl; rewrite IH; reflexivity.
Qed.

Lemma parseNotesFromLine_map (cfg : NoteParser.ParseConfig) (line : string) :
  NoteParser.parseNotesFromLine cfg line
  = map (fun n => NoteParser.normalize_case (convert_one cfg n)) (tokenize line).
Proof.
  unfold NoteParser.parseNotesFromLine. rewrite convertNotes_fst, map_map. reflexivity.
Qed.

Lemma b_warnings_spec (cfg : NoteParser.ParseConfig) (ln k : nat) (toks : list string)
  (w : ValidationWarning) :
  In w (NoteParser.b_warnings cfg ln k toks) ->
  exists j, j < List.length toks /\ warn_type w = NOTE_CONVERSION
    /\ warn_line w = Some ln /\ warn_position w = Some (k + j)
    /\ toUpperCase (nth j toks EmptyString) = "B" /\ NoteParser.autoConvertB cfg = true.
Proof.
  revert k; induction toks as [| t toks IH]; intros k Hin; simpl in Hin; [contradiction |].
  apply in_app_or in Hin as [Hin | Hin].
  - destruct (String.eqb (toUpperCase t) "B") eqn:E1; destruct (NoteParser.autoConvertB cfg) eqn:E2;
      simpl in Hin; try contradiction.
    destruct Hin as [<- | []]. exists 0. apply String.eqb_eq in E1.
    repeat split; simpl; auto; lia.
  - destruct (IH (S k) Hin) as (j & Hj & H1 & H2 & H3 & H4 & H5).
    exists (S j). repeat split; simpl; auto; [lia | rewrite H3; f_equal; lia].
Qed.

Lemma validate_notes_loop_no_conversion (cfg : NoteParser.ParseConfig) (ln k : nat)
  (ns : list string) (w : ValidationWarning) :
  In w (snd (NoteParser.validate_notes_loop cfg ln k ns)) -> warn_type w <> NOTE_CONVERSION.
Proof.
  revert k; induction ns as [| n ns IH]; intros k; simpl; [contradiction |].
  destruct (NoteParser.validate_notes_loop cfg ln (S k) ns) as [es ws] eqn:E. simpl.
  intros Hin. apply in_app_or in Hin as [Hin | Hin].
  - apply filter_In in Hin as [_ Hw]. unfold NoteParser.not_conversion in Hw.
    destruct (warn_type w); discriminate.
  - apply (IH (S k)). rewrite E. exact Hin.
Qed.

Lemma upper_B_convert (cfg : NoteParser.ParseConfig) (t : string) :
  toUpperCase t = "B" -> NoteParser.autoConvertB cfg = true ->
  NoteParser.normalize_case (convert_one cfg t) = "Bb".
Proof.
  intros H1 H2. unfold convert_one. rewrite H1, H2. reflexivity.
Qed.

(** C9: ["F,G|A-Bb"] and ["F G A Bb"] tokenize alike; any non-empty run of
    separators splits like one space; and each NoteConversion warning's
    position names a token of the same tokenization, which the parsing pass
    turns into ["Bb"] at the same index. *)
Theorem tokenization_separators (cfg : NoteParser.ParseConfig) :
  tokenize "F,G|A-Bb" = ["F"; "G"; "A"; "Bb"]
  /\ tokenize "F G A Bb" = ["F"; "G"; "A"; "Bb"]
  /\ (forall s1 r s2, r <> EmptyString -> all_chars is_sep r = true ->
        tokenize (s1 ++ r ++ s2) = tokenize (s1 ++ " " ++ s2))
  /\ (forall line, List.length (NoteParser.parseNotesFromLine cfg line)
                   = List.length (tokenize line))
  /\ (forall line ln w,
        In w (warnings (NoteParser.validateNoteLine cfg line ln)) ->
        warn_type w = NOTE_CONVERSION ->
        exists p, warn_position w = Some p /\ 1 <= p <= List.length (tokenize line)
          /\ toUpperCase (nth (p - 1) (tokenize line) EmptyString) = "B"
          /\ nth (p - 1) (NoteParser.parseNotesFromLine cfg line) EmptyString = "Bb").
Proof.
  split; [reflexivity |]. split; [reflexivity |]. split; [| split].
  - intros s1 r s2 Hr Hs. rewrite !tokenize_words. unfold words.
    apply words_go_prefix. intros cur. apply words_go_run; assumption.
  - intros line. rewrite parseNotesFromLine_map, length_map. reflexivity.
  - intros line ln w Hin Hty. unfold NoteParser.validateNoteLine in Hin.
    destruct (is_empty (trim line)).
    + simpl in Hin. destruct Hin as [<- | []]. discriminate.
    + destruct (NoteParser.validate_notes_loop cfg ln 1 (NoteParser.parseNotesFromLine cfg line))
        as [e2 w2] eqn:E.
      simpl in Hin. apply in_app_or in Hin as [Hin | Hin].
      * destruct (b_warnings_spec cfg ln 1 (tokenize line) w Hin)
          as (j & Hj & _ & _ & Hp & Hu & Ha).
        exists (S j). split; [exact Hp |]. split; [lia |].
        replace (S j - 1) with j by lia. split; [exact Hu |].
        rewrite parseNotesFromLine_map.
        rewrite nth_indep with (d' := NoteParser.normalize_case (convert_one cfg EmptyString))
          by (rewrite length_map; exact Hj).
        rewrite (map_nth (fun n => NoteParser.normalize_case (convert_one cfg n))
                   (tokenize line) EmptyString j).
        apply upper_B_convert; assumption.
      * exfalso. apply (validate_notes_loop_no_conversion cfg ln 1
                          (NoteParser.parseNotesFromLine cfg line) w); [rewrite E; exact Hin | exact Hty].
Qed.

End TokFacts.

(* ------------------------------------------------------------------ *)
(** ** Suggestions of [validateNotes] *)

Module SuggestionFacts.
Import Js Ref StrFacts FingeringEngine.

Lemma lower_char_b (c : ascii) : lower_char c = "b"%char -> c = "b"%char \/ c = "B"%char.
Proof.
  destruct c as [[] [] [] [] [] [] [] []]; vm_compute; intros H;
    first [discriminate | left; reflexivity | right; reflexivity].
Qed.

Lemma toLowerCase_b (t : string) : toLowerCase t = "b" -> t = "b" \/ t = "B".
Proof.
  destruct t as [| c [| c' t]]; simpl; try discriminate.
  intros H. injection H as H. destruct (lower_char_b c H) as [-> | ->]; auto.
Qed.

Lemma getSuggestions_amended (t : string) :
  includes OBJECT_PROTOTYPE_KEYS t = false ->
  getSuggestions t = Ok (amended_suggestions t).
Proof.
  intros Hp. unfold getSuggestions, amended_suggestions, noteMap_get.
  destruct (String.eqb t "B") eqn:EB; [apply String.eqb_eq in EB; subst t; reflexivity |].
  destruct (String.eqb t "b") eqn:Eb; [apply String.eqb_eq in Eb; subst t; reflexivity |].
  assert (Hl : String.eqb (toLowerCase t) "b" = false).
  { destruct (String.eqb (toLowerCase t) "b") eqn:E; [| reflexivity].
    apply String.eqb_eq, toLowerCase_b in E as [-> | ->]; discriminate. }
  rewrite Hl, Hp.
  destruct (lookup t noteMap) as [v |] eqn:Ev; [| reflexivity].
  simpl in Ev.
  repeat match type of Ev with
         | context [String.eqb t ?k] => destruct (String.eqb t k); [injection Ev as <-; reflexivity |]
         end.
  discriminate.
Qed.

(** Counterexample to C7: for the token ["B"] the suggestions are neither
    [["Bb"]] nor the table entry [["Bb"; "A"; "C"]] but both one after the
    other; and a token naming an [Object.prototype] member makes
    [validateNotes] throw instead of reporting an error. *)
Lemma validateNotes_B_suggestions :
  validateNotes ["B"] =
  Ok (mkResult false
        [mkError UNSUPPORTED_NOTE ("Note " ++ dq ++ "B" ++ dq ++ " is not supported by 4-hole ocarina")
           None (Some 0) (Some ["Bb"; "Bb"; "A"; "C"])] [])
  /\ ["Bb"; "Bb"; "A"; "C"] <> ["Bb"]
  /\ ["Bb"; "Bb"; "A"; "C"] <> ["Bb"; "A"; "C"]
  /\ validateNotes ["toString"] = ThrowsTypeError.
Proof. split; [reflexivity |]. split; [discriminate |]. split; [discriminate | reflexivity]. Qed.

Lemma validateNotes_from_spec (i : nat) (ns : list string) :
  Forall (fun n => includes OBJECT_PROTOTYPE_KEYS (trim n) = false) ns ->
  exists es, validateNotes_from i ns = Ok es
    /\ Forall (fun e => err_type e = UNSUPPORTED_NOTE) es
    /\ map (fun e => (err_position e, err_suggestions e)) es = expected_errors i ns.
Proof.
  revert i; induction ns as [| n ns IH]; intros i HF; cbn [validateNotes_from expected_errors].
  - exists []. repeat split; constructor.
  - inversion HF as [| ? ? Hn HF']; subst.
    destruct (IH (S i) HF') as (es & E & Hty & Hmap).
    unfold isSupported, normalizeNote. rewrite trim_idem.
    destruct (includes SUPPORTED_NOTES (trim n)); cbn [negb].
    + exists es. repeat split; assumption.
    + rewrite getSuggestions_amended by exact Hn. rewrite E.
      eexists. split; [reflexivity |]. split.
      * constructor; [reflexivity | exact Hty].
      * simpl. rewrite Hmap. reflexivity.
Qed.

(** C7 (amended): when no trimmed entry names an [Object.prototype] member,
    [validateNotes] returns, in order, one UnsupportedNote error per entry
    unsupported after trimming, with its 0-based array index as position and
    as suggestions: [Bb, Bb, A, C] for ["B"], [Bb] for ["b"], the table entry
    for [Db], [Eb], [Gb], [Ab], and all 7 supported names otherwise. *)
Theorem validateNotes_positions_suggestions (ns : list string)
  (H : Forall (fun n => includes OBJECT_PROTOTYPE_KEYS (trim n) = false) ns) :
  exists r, validateNotes ns = Ok r
    /\ Forall (fun e => err_type e = UNSUPPORTED_NOTE) (errors r)
    /\ map (fun e => (err_position e, err_suggestions e)) (errors r) = expected_errors 0 ns.
Proof.
  destruct (validateNotes_from_spec 0 ns H) as (es & E & Hty & Hmap).
  unfold validateNotes. rewrite E. eexists. split; [reflexivity |]. simpl. split; assumption.
Qed.

Lemma validateNotes_positions_suggestions_witness :
  exists r, validateNotes ["F"; "B"; " Db"; "x"; "b"] = Ok r
    /\ Forall (fun e => err_type e = UNSUPPORTED_NOTE) (errors r)
    /\ map (fun e => (err_position e, err_suggestions e)) (errors r)
       = [(Some 1, Some ["Bb"; "Bb"; "A"; "C"]); (Some 2, Some ["D"; "C"]);
          (Some 3, Some SUPPORTED_NOTES); (Some 4, Some ["Bb"])].
Proof.
  destruct (validateNotes_positions_suggestions ["F"; "B"; " Db"; "x"; "b"])
    as (r & E & Hty & Hmap); [repeat constructor |].
  exists r. split; [exact E |]. split; [exact Hty |]. rewrite Hmap. reflexivity.
Defined.

End SuggestionFacts.

(* ------------------------------------------------------------------ *)
(** ** Export file names *)

Module FilenameFacts.
Import Js Ref StrFacts Filename.

Lemma digit_char (n : nat) : is_digit (ascii_of_nat (48 + n mod 10)) = true.
Proof.
  unfold is_digit. rewrite nat_ascii_embedding.
  - pose proof (Nat.mod_upper_bound n 10). apply andb_true_iff; split; apply Nat.leb_le; lia.
  - pose proof (Nat.mod_upper_bound n 10). lia.
Qed.

Lemma digits_aux_spec (fuel n : nat) (acc : string) :
  n < fuel ->
  exists d, digits_aux fuel n acc = d ++ acc /\ all_chars is_digit d = true
    /\ (forall w, 1 <= w -> n < 10 ^ w -> String.length d <= w).
Proof.
  revert n acc; induction fuel as [| f IH]; intros n acc Hn; [lia |].
  cbn [digits_aux].
  destruct (n <? 10) eqn:E.
  - exists (String (ascii_of_nat (48 + n mod 10)) EmptyString).
    split; [reflexivity |]. split; [cbn [all_chars]; rewrite digit_char; reflexivity |].
    intros w Hw _. cbn [String.length]. lia.
  - apply Nat.ltb_ge in E.
    assert (Hdiv : n / 10 < f).
    { assert (n / 10 < n) by (apply Nat.div_lt; lia). lia. }
    destruct (IH (n / 10) (String (ascii_of_nat (48 + n mod 10)) acc) Hdiv)
      as (d & Ed & Hd & Hl).
    exists (d ++ String (ascii_of_nat (48 + n mod 10)) EmptyString).
    split; [rewrite Ed, append_assoc; reflexivity |].
    split; [rewrite all_chars_append, Hd; cbn [all_chars]; rewrite digit_char; reflexivity |].
    intros w Hw Hlt. rewrite length_append. cbn [String.length].
    destruct w as [| w']; [lia |].
    destruct w' as [| w'']; [rewrite Nat.pow_1_r in Hlt; lia |].
    assert (H : n / 10 < 10 ^ S w'').
    { apply Nat.Div0.div_lt_upper_bound. rewrite <- Nat.pow_succ_r'. exact Hlt. }
    specialize (Hl (S w'') ltac:(lia) H). lia.
Qed.

Lemma zeros_spec (k : nat) : all_chars is_digit (zeros k) = true /\ String.length (zeros k) = k.
Proof. induction k as [| k [IH1 IH2]]; simpl; [auto | rewrite IH1, IH2; auto]. Qed.

Lemma pad_digits (w n : nat) : all_chars is_digit (pad w n) = true.
Proof.
  unfold pad, show_nat. destruct (digits_aux_spec (S n) n EmptyString ltac:(lia)) as (d & E & Hd & _).
  rewrite E, append_empty_r, all_chars_append, (proj1 (zeros_spec _)), Hd. reflexivity.
Qed.

Lemma pad_length (w n : nat) : 1 <= w -> n < 10 ^ w -> String.length (pad w n) = w.
Proof.
  intros Hw Hn. unfold pad, show_nat.
  destruct (digits_aux_spec (S n) n EmptyString ltac:(lia)) as (d & E & _ & Hl).
  rewrite E, append_empty_r, length_append, (proj2 (zeros_spec _)).
  specialize (Hl w Hw Hn). lia.
Qed.

Lemma pad_filter (w n : nat) : filter_chars keep_stamp_char (pad w n) = pad w n.
Proof.
  apply filter_chars_all. eapply all_chars_impl; [| apply pad_digits].
  intros c. unfold is_digit, keep_stamp_char, is_colon_or_hyphen.
  destruct c as [[] [] [] [] [] [] [] []]; vm_compute; congruence.
Qed.

Lemma pad_lower (w n : nat) : toLowerCase (pad w n) = pad w n.
Proof.
  apply (map_chars_fix _ is_digit); [| apply pad_digits].
  intros c. destruct c as [[] [] [] [] [] [] [] []]; vm_compute; congruence.
Qed.

Lemma timestamp_spec (d : Date) : date_fields_ok d -> timestamp d = compact_stamp d.
Proof.
  intros (Hy & Hmo & Hd & Hh & Hmi & Hs & _).
  unfold timestamp, toISOString.
  assert (Ey : (year d <=? 9999) = true) by (apply Nat.leb_le; exact Hy). rewrite Ey.
  set (P := pad 4 (year d) ++ "-" ++ pad 2 (month d) ++ "-" ++ pad 2 (day d)
            ++ "T" ++ pad 2 (hours d) ++ ":" ++ pad 2 (minutes d) ++ ":" ++ pad 2 (seconds d)).
  assert (EP : pad 4 (year d) ++ "-" ++ pad 2 (month d) ++ "-" ++ pad 2 (day d)
            ++ "T" ++ pad 2 (hours d) ++ ":" ++ pad 2 (minutes d) ++ ":" ++ pad 2 (seconds d)
            ++ "." ++ pad 3 (millis d) ++ "Z" = P ++ "." ++ pad 3 (millis d) ++ "Z")
    by (unfold P; rewrite !append_assoc; reflexivity).
  rewrite EP.
  assert (LP : String.length P = 19).
  { assert (T2 : 10 ^ 2 = 100) by reflexivity.
    assert (T4 : 9999 < 10 ^ 4) by (apply Nat.ltb_lt; vm_compute; reflexivity).
    unfold P. rewrite !length_append.
    rewrite !pad_length by (rewrite ?T2; lia). reflexivity. }
  rewrite <- LP, substring_prefix.
  unfold P, compact_stamp.
  change (fun c => negb (is_colon_or_hyphen c)) with keep_stamp_char.
  rewrite !filter_chars_append, !pad_filter.
  change (filter_chars keep_stamp_char "-") with EmptyString.
  change (filter_chars keep_stamp_char ":") with EmptyString.
  change (filter_chars keep_stamp_char "T") with "T".
  cbn [String.append].
  unfold toLowerCase. rewrite !map_chars_append. cbn [map_chars].
  rewrite !map_chars_append.
  change (lower_char "T"%char) with "t"%char.
  fold toLowerCase. rewrite !pad_lower. reflexivity.
Qed.

(** Counterexample to C8: the stamp in the name is [YYYYMMDDtHHMMSS], so the
    name is not [my-song-] followed by a 14-digit number and [.png]. *)
Lemma generateFilename_stamp_not_numeric :
  renderer_generateFilename "My Song!" d0 = "my-song-20261016t090405.png"
  /\ ~ (exists ts, renderer_generateFilename "My Song!" d0 = "my-song" ++ "-" ++ ts ++ ".png"
          /\ String.length ts = 14 /\ all_chars is_digit ts = true).
Proof.
  assert (E : renderer_generateFilename "My Song!" d0 = "my-song-20261016t090405.png")
    by (vm_compute; reflexivity).
  split; [exact E |].
  intros (ts & Ets & Lts & _). rewrite E in Ets.
  apply (f_equal String.length) in Ets. rewrite !length_append, Lts in Ets.
  simpl in Ets. lia.
Qed.

Lemma trim_all_chars (p : ascii -> bool) (s : string) :
  all_chars p s = true -> all_chars p (trim s) = true.
Proof.
  intros H. unfold trim.
  assert (Hl : all_chars p (ltrim s) = true).
  { induction s as [| c t IH]; [reflexivity |]. simpl in H |- *.
    apply andb_true_iff in H as [H1 H2]. destruct (is_ws c); [apply IH, H2 | simpl; rewrite H1, H2; reflexivity]. }
  revert Hl. generalize (ltrim s) as u. intros u. induction u as [| c t IH]; [reflexivity |].
  intros Hu. simpl in Hu. apply andb_true_iff in Hu as [H1 H2].
  rewrite rtrim_cons. specialize (IH H2).
  destruct (rtrim t) eqn:E.
  - destruct (is_ws c); simpl; [reflexivity | rewrite H1; reflexivity].
  - cbn [all_chars]. rewrite H1. exact IH.
Qed.

Lemma filter_chars_none (p : ascii -> bool) (s : string) :
  all_chars (fun c => negb (p c)) s = true -> filter_chars p s = EmptyString.
Proof.
  induction s as [| c t IH]; simpl; [reflexivity |].
  intros H. apply andb_true_iff in H as [H1 H2]. destruct (p c); [discriminate | apply IH, H2].
Qed.

Lemma clean_special (t : string) : all_chars special t = true -> clean t = EmptyString.
Proof.
  intros H. unfold clean. rewrite filter_chars_none; [reflexivity |].
  apply trim_all_chars, H.
Qed.

(** C8 (amended): for a date whose fields [toISOString] prints in the short
    form, both generators name "My Song!" [my-song-YYYYMMDDtHHMMSS.png], and a
    title made only of characters other than letters, digits, [_], white
    space and [-] [ocarina-chart-YYYYMMDDtHHMMSS.png]. *)
Theorem generateFilename_shape (d : Date) (t : string)
  (Hd : date_fields_ok d) (Ht : all_chars special t = true) :
  renderer_generateFilename "My Song!" d = "my-song-" ++ compact_stamp d ++ ".png"
  /\ export_generateFilename DEFAULT_EXPORT_CONFIG "My Song!" "png" d
     = "my-song-" ++ compact_stamp d ++ ".png"
  /\ renderer_generateFilename t d = "ocarina-chart-" ++ compact_stamp d ++ ".png"
  /\ export_generateFilename DEFAULT_EXPORT_CONFIG t "png" d
     = "ocarina-chart-" ++ compact_stamp d ++ ".png".
Proof.
  unfold renderer_generateFilename, export_generateFilename.
  rewrite (timestamp_spec d Hd), (clean_special t Ht).
  replace (clean "My Song!") with "my-song" by (vm_compute; reflexivity).
  simpl. repeat split; reflexivity.
Qed.

Lemma generateFilename_shape_witness :
  renderer_generateFilename "My Song!" d0 = "my-song-" ++ compact_stamp d0 ++ ".png"
  /\ renderer_generateFilename "!!!" d0 = "ocarina-chart-" ++ compact_stamp d0 ++ ".png".
Proof.
  destruct (generateFilename_shape d0 "!!!") as (H1 & _ & H3 & _);
    [unfold date_fields_ok, d0; cbn [year month day hours minutes seconds millis];
     repeat split; apply Nat.leb_le; vm_compute; reflexivity | reflexivity |].
  split; assumption.
Defined.

End FilenameFacts.

(* ------------------------------------------------------------------ *)
(** ** Parsing and validation *)

Module ParserFacts.
Import Js Tok Ref StrFacts TokFacts NoteParser.

(** C3: [parseSong] returns a song exactly when [validateInput] reports the
    input valid; otherwise it fails with ["Parsing failed: "] followed by the
    messages of all the collected errors joined by [", "]; a returned song is
    the complete parse of the input. *)
Theorem parseSong_iff_valid (cfg : ParseConfig) (now : nat) (input : string) :
  ((exists s, parseSong cfg now input = Parsed s) <-> isValid (validateInput cfg input) = true)
  /\ (isValid (validateInput cfg input) = false ->
      parseSong cfg now input
      = ParsingFailed ("Parsing failed: "
                         ++ join ", " (map err_message (errors (validateInput cfg input)))))
  /\ (forall s, parseSong cfg now input = Parsed s ->
      s = mkSong (extractTitle (preprocessInput input))
                 (parseNoteLines cfg (tl (preprocessInput input)))
                 (mkMetadata input now
                    (List.length (List.concat (parseNoteLines cfg (tl (preprocessInput input))))))).
Proof.
  unfold parseSong. destruct (isValid (validateInput cfg input)); simpl.
  - split; [split; [reflexivity | intros _; eexists; reflexivity] |].
    split; [discriminate |]. intros s E. injection E as <-. reflexivity.
  - split; [split; [intros [s E]; discriminate | discriminate] |].
    split; [reflexivity | discriminate].
Qed.

(** [isValid] is [errors.length === 0] on every path. *)
Lemma validateInput_isValid (cfg : ParseConfig) (input : string) :
  isValid (validateInput cfg input) = no_errors (errors (validateInput cfg input)).
Proof.
  unfold validateInput. destruct (is_empty (trim input)); [reflexivity |].
  destruct (validate_lines cfg 2 (tl (preprocessInput input))). reflexivity.
Qed.

Lemma ltrim_empty_all_ws (s : string) : ltrim s = EmptyString -> all_chars is_ws s = true.
Proof.
  induction s as [| c t IH]; simpl; [reflexivity |].
  destruct (is_ws c); [exact IH | discriminate].
Qed.

Lemma trim_empty_ltrim (s : string) : trim s = EmptyString -> ltrim s = EmptyString.
Proof.
  unfold trim. destruct (ltrim_shape s) as [E | (c & t & E & W)]; rewrite E; [auto |].
  destruct (rtrim_head c t W) as [t' ->]. discriminate.
Qed.

Lemma all_ws_trim (s : string) : all_chars is_ws s = true -> trim s = EmptyString.
Proof.
  intros H. unfold trim.
  assert (ltrim s = EmptyString) as ->; [| reflexivity].
  induction s as [| c t IH]; simpl in H |- *; [reflexivity |].
  apply andb_true_iff in H as [H1 H2]. rewrite H1. apply IH, H2.
Qed.

Lemma substring_all (p : ascii -> bool) (k m : nat) (s : string) :
  all_chars p s = true -> all_chars p (String.substring k m s) = true.
Proof.
  revert k m; induction s as [| c t IH]; intros k m H.
  - destruct k, m; reflexivity.
  - simpl in H. apply andb_true_iff in H as [H1 H2]. destruct k as [| k].
    + destruct m as [| m]; [reflexivity |]. simpl. rewrite H1. apply IH, H2.
    + simpl. apply IH, H2.
Qed.

Lemma drop_final_cr_all (p : ascii -> bool) (s : string) :
  all_chars p s = true -> all_chars p (drop_final_cr s) = true.
Proof.
  intros H. unfold drop_final_cr.
  destruct (String.get _ s); [destruct (_ && _) |]; auto using substring_all.
Qed.

Lemma split_lf_all (p : ascii -> bool) (cur s : string) :
  all_chars p cur = true -> all_chars p s = true -> Forall (fun l => all_chars p l = true) (split_lf cur s).
Proof.
  revert cur; induction s as [| c t IH]; intros cur Hc Hs; simpl.
  - constructor; [exact Hc | constructor].
  - simpl in Hs. apply andb_true_iff in Hs as [H1 H2].
    destruct (Ascii.eqb c (ascii_of_nat 10)).
    + constructor; [apply drop_final_cr_all, Hc | apply IH; [reflexivity | exact H2]].
    + apply IH; [| exact H2]. unfold snoc. rewrite all_chars_append, Hc. simpl. rewrite H1. reflexivity.
Qed.

(** A blank input preprocesses to empty lines only. *)
Lemma input_blank_lines (input : string) :
  is_empty (trim input) = true -> Forall (fun l => l = EmptyString) (preprocessInput input).
Proof.
  intros H. assert (E : trim input = EmptyString) by (destruct (trim input); [reflexivity | discriminate]).
  apply trim_empty_ltrim, ltrim_empty_all_ws in E.
  unfold preprocessInput. apply Forall_map.
  eapply Forall_impl; [| apply split_lf_all; [reflexivity | exact E]].
  intros l Hl. apply all_ws_trim, Hl.
Qed.

Lemma validate_lines_blank (cfg : ParseConfig) (n : nat) (ls : list string) :
  Forall (fun l => l = EmptyString) ls ->
  fst (validate_lines cfg n ls) = []
  /\ Forall (fun w => warn_type w = EMPTY_LINE) (snd (validate_lines cfg n ls)).
Proof.
  intros H. revert n; induction H as [| l ls Hl H IH]; intros n; simpl; [auto |].
  subst l. destruct (IH (S n)) as [H1 H2].
  destruct (validate_lines cfg (S n) ls) as [es ws]. simpl in H1, H2 |- *. subst es.
  split; [reflexivity |]. constructor; [reflexivity | exact H2].
Qed.

Lemma parseNoteLines_blank (cfg : ParseConfig) (ls : list string) :
  Forall (fun l => l = EmptyString) ls -> parseNoteLines cfg ls = [].
Proof. induction 1 as [| l ls Hl H IH]; simpl; [reflexivity | subst l; exact IH]. Qed.

(** Counterexample to C10: a title followed by 100 line feeds has 101
    preprocessed lines, a non-blank first one and blank ones after it, yet
    exceeds [maxLines] and is rejected. *)
Lemma validateInput_title_then_100_blank_lines :
  let input := "Title" ++ newlines 100 in
  List.length (preprocessInput input) = 101
  /\ hd EmptyString (preprocessInput input) = "Title"
  /\ forallb is_empty (tl (preprocessInput input)) = true
  /\ isValid (validateInput DEFAULT_CONFIG input) = false
  /\ parseSong DEFAULT_CONFIG 0 input
     = ParsingFailed "Parsing failed: Too many lines (101). Maximum allowed: 100".
Proof. vm_compute. repeat split; reflexivity. Qed.

(** C10 (amended): an input whose preprocessed lines number between 2 and
    [maxLines], with a non-blank first line and blank lines after it, is
    valid with EmptyLine warnings only, and parses to a song without lines
    and with no notes; an input with more than [maxLines] preprocessed lines
    is rejected by [validateInput], and [parseSong] fails on it. *)
Theorem validateInput_title_only (cfg : ParseConfig) (now : nat) (input : string) :
  (2 <= List.length (preprocessInput input) ->
   List.length (preprocessInput input) <= maxLines cfg ->
   hd EmptyString (preprocessInput input) <> EmptyString ->
   Forall (fun l => l = EmptyString) (tl (preprocessInput input)) ->
   isValid (validateInput cfg input) = true
   /\ Forall (fun w => warn_type w = EMPTY_LINE) (warnings (validateInput cfg input))
   /\ exists s, parseSong cfg now input = Parsed s
        /\ lines s = [] /\ noteCount (metadata s) = 0)
  /\ (maxLines cfg < List.length (preprocessInput input) ->
      isValid (validateInput cfg input) = false
      /\ exists msg, parseSong cfg now input = ParsingFailed msg).
Proof.
  split.
  - intros H2 Hmax Hhd Hblank.
    assert (Hne : is_empty (trim input) = false).
    { destruct (is_empty (trim input)) eqn:E; [| reflexivity].
      apply input_blank_lines in E. exfalso. apply Hhd.
      destruct (preprocessInput input) as [| l ls]; [reflexivity |].
      inversion E; assumption. }
    destruct (validate_lines_blank cfg 2 _ Hblank) as [He Hw].
    assert (Hv : isValid (validateInput cfg input) = true
                 /\ Forall (fun w => warn_type w = EMPTY_LINE) (warnings (validateInput cfg input))).
    { unfold validateInput. rewrite Hne.
      destruct (validate_lines cfg 2 (tl (preprocessInput input))) as [e3 w3]. simpl in He, Hw.
      subst e3.
      assert (E1 : (List.length (preprocessInput input) <? 2) = false) by (apply Nat.ltb_ge; exact H2).
      assert (E2 : (maxLines cfg <? List.length (preprocessInput input)) = false)
        by (apply Nat.ltb_ge; exact Hmax).
      rewrite E1, E2. split; [reflexivity | exact Hw]. }
    destruct Hv as [Hv Hwv]. split; [exact Hv |]. split; [exact Hwv |].
    unfold parseSong. rewrite Hv. simpl. eexists. split; [reflexivity |].
    rewrite (parseNoteLines_blank cfg _ Hblank). split; reflexivity.
  - intros Hmax.
    assert (Hv : isValid (validateInput cfg input) = false).
    { unfold validateInput. destruct (is_empty (trim input)); [reflexivity |].
      assert (E2 : (maxLines cfg <? List.length (preprocessInput input)) = true)
        by (apply Nat.ltb_lt; exact Hmax).
      rewrite E2. destruct (validate_lines cfg 2 (tl (preprocessInput input))) as [e3 w3].
      cbn [isValid]. destruct (List.length (preprocessInput input) <? 2); reflexivity. }
    split; [exact Hv |].
    unfold parseSong. rewrite Hv. simpl. eexists. reflexivity.
Qed.

Lemma validateInput_title_only_witness :
  let input := "Title" ++ newlines 1 in
  let long := "Title" ++ newlines 100 in
  isValid (validateInput DEFAULT_CONFIG input) = true
  /\ (exists s, parseSong DEFAULT_CONFIG 0 input = Parsed s /\ lines s = [] /\ noteCount (metadata s) = 0)
  /\ isValid (validateInput DEFAULT_CONFIG long) = false.
Proof.
  cbv zeta.
  destruct (validateInput_title_only DEFAULT_CONFIG 0 ("Title" ++ newlines 1)) as [Hshort _].
  destruct Hshort as (Hv & _ & Hs);
    [vm_compute; lia | vm_compute; lia | vm_compute; discriminate | vm_compute; repeat constructor |].
  destruct (validateInput_title_only DEFAULT_CONFIG 0 ("Title" ++ newlines 100)) as [_ Hlong].
  destruct Hlong as [Hl _]; [vm_compute; lia |].
  split; [exact Hv | split; [exact Hs | exact Hl]].
Defined.

Lemma includes_In (xs : list string) (x : string) : includes xs x = true <-> In x xs.
Proof.
  unfold includes. rewrite existsb_exists. split.
  - intros (y & Hy & E). apply String.eqb_eq in E. subst y. exact Hy.
  - intros H. exists x. split; [exact H | apply String.eqb_refl].
Qed.

Lemma upper_upper_char (c : ascii) : upper_char (upper_char c) = upper_char c.
Proof. destruct c as [[] [] [] [] [] [] [] []]; reflexivity. Qed.

Lemma upper_lower_char (c : ascii) : upper_char (lower_char c) = upper_char c.
Proof. destruct c as [[] [] [] [] [] [] [] []]; reflexivity. Qed.

Lemma map_chars_comp (f g : ascii -> ascii) (s : string) :
  map_chars f (map_chars g s) = map_chars (fun c => f (g c)) s.
Proof. induction s as [| c t IH]; simpl; [reflexivity | rewrite IH; reflexivity]. Qed.

Lemma map_chars_ext (f g : ascii -> ascii) (s : string) :
  (forall c, f c = g c) -> map_chars f s = map_chars g s.
Proof. intros H. induction s as [| c t IH]; simpl; [reflexivity | rewrite H, IH; reflexivity]. Qed.

(** Upper-casing forgets [validateNote]'s first-letter normalization. *)
Lemma upper_normalized (n : string) :
  toUpperCase (toUpperCase (charAt0 n) ++ toLowerCase (slice1 n)) = toUpperCase n.
Proof.
  destruct n as [| c t]; [reflexivity |].
  cbn [toUpperCase charAt0 slice1 String.append map_chars].
  rewrite upper_upper_char. f_equal.
  unfold toUpperCase, toLowerCase. rewrite map_chars_comp.
  apply map_chars_ext, upper_lower_char.
Qed.

Lemma validateNote_no_errors (cfg : ParseConfig) (n : string) (ln p : nat) :
  errors (validateNote cfg n ln p) = [] ->
  includes SUPPORTED_NOTES (toUpperCase (charAt0 n) ++ toLowerCase (slice1 n)) = true
  \/ (toUpperCase n = "B" /\ autoConvertB cfg = true).
Proof.
  unfold validateNote.
  destruct (includes SUPPORTED_NOTES _); [left; reflexivity |].
  destruct (String.eqb (toUpperCase n) "B") eqn:EB; [| discriminate].
  destruct (autoConvertB cfg) eqn:EA; [| discriminate].
  intros _. right. split; [apply String.eqb_eq; exact EB | reflexivity].
Qed.

(** A parsed note that passes [validateNote] is a canonical supported name. *)
Lemma parsed_note_canonical (cfg : ParseConfig) (t : string) (ln p : nat) :
  errors (validateNote cfg (normalize_case (convert_one cfg t)) ln p) = [] ->
  In (normalize_case (convert_one cfg t)) SUPPORTED_NOTES.
Proof.
  set (x := convert_one cfg t).
  unfold normalize_case at 1 2.
  destruct (String.eqb (toUpperCase x) "BB") eqn:E1; [intros _; simpl; auto 10 |].
  destruct (includes SUPPORTED_NOTES (toUpperCase x)) eqn:E2; [intros _; apply includes_In, E2 |].
  intros H. exfalso.
  destruct (validateNote_no_errors cfg x ln p H) as [Hs | [Hb Ha]].
  - apply includes_In in Hs.
    assert (Hu := upper_normalized x).
    set (m := toUpperCase (charAt0 x) ++ toLowerCase (slice1 x)) in Hs, Hu.
    simpl in Hs.
    repeat destruct Hs as [Hs | Hs]; try contradiction; rewrite <- Hs in Hu; simpl in Hu;
      rewrite <- Hu in E1, E2; discriminate.
  - unfold x, convert_one in Hb, E1.
    destruct (String.eqb (toUpperCase t) "B" && autoConvertB cfg) eqn:E.
    + discriminate.
    + rewrite Hb, Ha in E. simpl in E. discriminate.
Qed.

Lemma validate_notes_loop_errors (cfg : ParseConfig) (ln k : nat) (ns : list string) :
  fst (validate_notes_loop cfg ln k ns) = [] ->
  forall n, In n ns -> exists p, errors (validateNote cfg n ln p) = [].
Proof.
  revert k; induction ns as [| m ns IH]; intros k H n Hin; [contradiction |].
  simpl in H. destruct (validate_notes_loop cfg ln (S k) ns) as [es ws] eqn:E. simpl in H.
  apply app_eq_nil in H as [H1 H2].
  destruct Hin as [<- | Hin]; [exists k; exact H1 |].
  apply (IH (S k)); [rewrite E; exact H2 | exact Hin].
Qed.

Lemma tokenize_blank (l : string) : is_empty (trim l) = true -> tokenize l = [].
Proof.
  intros H. assert (E : trim l = EmptyString) by (destruct (trim l); [reflexivity | discriminate]).
  apply trim_empty_ltrim, ltrim_empty_all_ws in E.
  rewrite tokenize_words. unfold words.
  rewrite <- (append_empty_r l), words_go_seps; [reflexivity |].
  eapply all_chars_impl; [| exact E]. intros c Hc. unfold is_sep. rewrite Hc. reflexivity.
Qed.

Lemma validateNoteLine_canonical (cfg : ParseConfig) (l : string) (ln : nat) :
  errors (validateNoteLine cfg l ln) = [] ->
  Forall (fun n => In n SUPPORTED_NOTES) (parseNotesFromLine cfg l).
Proof.
  unfold validateNoteLine.
  destruct (is_empty (trim l)) eqn:Eb.
  - intros _. rewrite parseNotesFromLine_map, tokenize_blank by exact Eb. constructor.
  - destruct (validate_notes_loop cfg ln 1 (parseNotesFromLine cfg l)) as [e2 w2] eqn:E.
    simpl. intros H. apply app_eq_nil in H as [_ H2].
    assert (Hl := validate_notes_loop_errors cfg ln 1 (parseNotesFromLine cfg l)).
    rewrite E in Hl. specialize (Hl H2).
    apply Forall_forall. intros n Hin.
    destruct (Hl n Hin) as [p Hp].
    rewrite parseNotesFromLine_map in Hin. apply in_map_iff in Hin as (t & <- & _).
    eapply parsed_note_canonical. exact Hp.
Qed.

Lemma validate_lines_errors (cfg : ParseConfig) (n : nat) (ls : list string) :
  fst (validate_lines cfg n ls) = [] ->
  forall l, In l ls -> exists k, errors (validateNoteLine cfg l k) = [].
Proof.
  revert n; induction ls as [| m ls IH]; intros n H l Hin; [contradiction |].
  simpl in H. destruct (validate_lines cfg (S n) ls) as [es ws] eqn:E. simpl in H.
  apply app_eq_nil in H as [H1 H2].
  destruct Hin as [<- | Hin]; [exists n; exact H1 |].
  apply (IH (S n)); [rewrite E; exact H2 | exact Hin].
Qed.


Lemma parseNoteLines_spec (cfg : ParseConfig) (ls : list string) :
  parseNoteLines cfg ls = filter nonnil (map (parseNotesFromLine cfg) (filter nonblank ls)).
Proof.
  induction ls as [| l ls IH]; simpl; [reflexivity |].
  unfold nonblank at 1. destruct (is_empty (trim l)); simpl; [exact IH |].
  destruct (parseNotesFromLine cfg l); simpl; rewrite IH; reflexivity.
Qed.

Lemma validInput_lines (cfg : ParseConfig) (input : string) :
  isValid (validateInput cfg input) = true ->
  fst (validate_lines cfg 2 (tl (preprocessInput input))) = [].
Proof.
  unfold validateInput. destruct (is_empty (trim input)); [discriminate |].
  destruct (validate_lines cfg 2 (tl (preprocessInput input))) as [e3 w3]. simpl.
  destruct (_ ++ _ ++ e3)%list eqn:E; [| discriminate]. intros _.
  apply app_eq_nil in E as [_ E]. apply app_eq_nil in E as [_ E]. exact E.
Qed.

Lemma extractTitle_spec (ls : list string) :
  extractTitle ls <> EmptyString
  /\ (is_empty (trim (hd EmptyString ls)) = true
      \/ is_empty (trim (strip_title_prefix (trim (hd EmptyString ls)))) = true ->
      extractTitle ls = "Untitled Song").
Proof.
  destruct ls as [| l0 ls]; simpl; [split; [discriminate | reflexivity] |].
  destruct (is_empty (trim l0)) eqn:E0; [split; [discriminate | reflexivity] |].
  destruct (trim (strip_title_prefix (trim l0))) eqn:E1; simpl.
  - split; [discriminate | reflexivity].
  - split; [discriminate |]. intros [H | H]; discriminate.
Qed.

(** C2: for a valid input, every note of the parsed song is one of the seven
    canonical names, [lines] keeps one non-empty entry per non-blank note
    line that yields notes (blank lines have none), and the title is never
    empty, falling back to ["Untitled Song"] when the title line is blank or
    empty once its [Title:]/[Song:]/[Name:] prefix is stripped. *)
Theorem parseSong_song_invariants (cfg : ParseConfig) (now : nat) (input : string)
  (Hv : isValid (validateInput cfg input) = true) :
  exists s, parseSong cfg now input = Parsed s
    /\ canonical_lines (lines s)
    /\ Forall (fun l => l <> []) (lines s)
    /\ lines s = filter nonnil (map (parseNotesFromLine cfg)
                                 (filter nonblank (tl (preprocessInput input))))
    /\ title s <> EmptyString
    /\ (is_empty (trim (hd EmptyString (preprocessInput input))) = true
        \/ is_empty (trim (strip_title_prefix (trim (hd EmptyString (preprocessInput input))))) = true ->
        title s = "Untitled Song").
Proof.
  unfold parseSong. rewrite Hv. simpl. eexists. split; [reflexivity |]. simpl.
  destruct (extractTitle_spec (preprocessInput input)) as [Ht1 Ht2].
  assert (Hl := validate_lines_errors cfg 2 _ (validInput_lines cfg input Hv)).
  rewrite parseNoteLines_spec.
  split; [| split; [| split; [reflexivity | split; assumption]]].
  - unfold canonical_lines. apply Forall_forall. intros ns Hns.
    apply filter_In in Hns as [Hns _]. apply in_map_iff in Hns as (l & <- & Hin).
    apply filter_In in Hin as [Hin _].
    destruct (Hl l Hin) as [k Hk]. eapply validateNoteLine_canonical. exact Hk.
  - apply Forall_forall. intros ns Hns. apply filter_In in Hns as [_ Hn].
    destruct ns; [discriminate | congruence].
Qed.

Lemma parseSong_song_invariants_witness :
  exists s, parseSong DEFAULT_CONFIG 0 ("Title: Tune" ++ newlines 1 ++ "f b" ++ newlines 2 ++ "bb, A") = Parsed s
    /\ canonical_lines (lines s) /\ title s = "Tune".
Proof.
  destruct (parseSong_song_invariants DEFAULT_CONFIG 0
              ("Title: Tune" ++ newlines 1 ++ "f b" ++ newlines 2 ++ "bb, A"))
    as (s & E & Hc & _); [vm_compute; reflexivity |].
  exists s. split; [exact E |]. split; [exact Hc |].
  vm_compute in E. injection E as <-. reflexivity.
Defined.

End ParserFacts.

Module ConversionFacts.
Import Js Tok Ref StrFacts TokFacts SuggestionFacts ParserFacts NoteParser.

Lemma filter_none {A : Type} (f : A -> bool) (l : list A) :
  (forall x, In x l -> f x = false) -> filter f l = [].
Proof.
  induction l as [| x l IH]; intros H; simpl; [reflexivity |].
  rewrite (H x (or_introl eq_refl)). apply IH. intros y Hy. apply H. right. exact Hy.
Qed.

Lemma conversion_at_spec (m p : nat) (w : ValidationWarning) :
  conversion_at m p w = true ->
  warn_type w = NOTE_CONVERSION /\ warn_line w = Some m /\ warn_position w = Some p.
Proof.
  unfold conversion_at. intros H.
  apply andb_prop in H as [H H3]. apply andb_prop in H as [H1 H2].
  split; [destruct (warn_type w); try discriminate; reflexivity |].
  split; [destruct (warn_line w) as [x |] | destruct (warn_position w) as [x |]];
    simpl in *; try discriminate; apply Nat.eqb_eq in H2 || apply Nat.eqb_eq in H3; subst; reflexivity.
Qed.

Lemma validateNote_warnings (cfg : ParseConfig) (n : string) (m p : nat) (w : ValidationWarning) :
  In w (warnings (validateNote cfg n m p)) -> warn_line w = Some m.
Proof.
  unfold validateNote. cbv zeta.
  destruct (includes SUPPORTED_NOTES _); [simpl; tauto |].
  destruct (String.eqb (toUpperCase n) "B"); [destruct (autoConvertB cfg) |];
    cbn [warnings In]; intros H; try contradiction; destruct H as [<- | []]; reflexivity.
Qed.

Lemma validateNote_error_pos (cfg : ParseConfig) (n : string) (m p : nat) (e : ValidationError) :
  In e (errors (validateNote cfg n m p)) -> err_line e = Some m /\ err_position e = Some p.
Proof.
  unfold validateNote. cbv zeta.
  destruct (includes SUPPORTED_NOTES _); [simpl; tauto |].
  destruct (String.eqb (toUpperCase n) "B"); [destruct (autoConvertB cfg) |];
    cbn [errors In]; intros H; try contradiction; destruct H as [<- | []]; split; reflexivity.
Qed.

Lemma validate_notes_loop_warning_lines (cfg : ParseConfig) (m k : nat) (ns : list string)
  (w : ValidationWarning) :
  In w (snd (validate_notes_loop cfg m k ns)) -> warn_line w = Some m.
Proof.
  revert k; induction ns as [| n ns IH]; intros k; simpl; [contradiction |].
  destruct (validate_notes_loop cfg m (S k) ns) as [es ws] eqn:E. simpl.
  intros H. apply in_app_or in H as [H | H].
  - apply filter_In in H as [H _]. eapply validateNote_warnings. exact H.
  - apply (IH (S k)). rewrite E. exact H.
Qed.

Lemma validate_notes_loop_error_lines (cfg : ParseConfig) (m k : nat) (ns : list string)
  (e : ValidationError) :
  In e (fst (validate_notes_loop cfg m k ns)) -> err_line e = Some m.
Proof.
  revert k; induction ns as [| n ns IH]; intros k; simpl; [contradiction |].
  destruct (validate_notes_loop cfg m (S k) ns) as [es ws] eqn:E. simpl.
  intros H. apply in_app_or in H as [H | H].
  - eapply validateNote_error_pos. exact H.
  - apply (IH (S k)). rewrite E. exact H.
Qed.

Lemma validate_notes_loop_errors_at (cfg : ParseConfig) (m : nat) (ns : list string) :
  forall k e p, In e (fst (validate_notes_loop cfg m k ns)) -> err_position e = Some p ->
  exists n, nth_error ns (p - k) = Some n /\ k <= p /\ In e (errors (validateNote cfg n m p)).
Proof.
  induction ns as [| x ns IH]; intros k e p; simpl; [contradiction |].
  destruct (validate_notes_loop cfg m (S k) ns) as [es ws] eqn:E. simpl.
  intros H Hp. apply in_app_or in H as [H | H].
  - destruct (validateNote_error_pos cfg x m k e H) as [_ Hk].
    rewrite Hp in Hk. injection Hk as ->. exists x. rewrite Nat.sub_diag.
    split; [reflexivity | split; [lia | exact H]].
  - destruct (IH (S k) e p) as (n & Hn & Hle & Hin); [rewrite E; exact H | exact Hp |].
    exists n. replace (p - k) with (S (p - S k)) by lia.
    split; [exact Hn | split; [lia | exact Hin]].
Qed.

Lemma validate_notes_loop_in (cfg : ParseConfig) (m : nat) (ns : list string) :
  forall k q x e, nth_error ns q = Some x -> In e (errors (validateNote cfg x m (k + q))) ->
  In e (fst (validate_notes_loop cfg m k ns)).
Proof.
  induction ns as [| y ns IH]; intros k q x e Hq Hin; [destruct q; discriminate |].
  simpl. destruct (validate_notes_loop cfg m (S k) ns) as [es ws] eqn:E. simpl.
  apply in_or_app. destruct q as [| q].
  - left. injection Hq as ->. rewrite Nat.add_0_r in Hin. exact Hin.
  - right. change es with (fst (es, ws)). rewrite <- E.
    apply (IH (S k) q x e Hq). rewrite Nat.add_succ_r in Hin. exact Hin.
Qed.

Lemma validateNoteLine_warning_lines (cfg : ParseConfig) (l : string) (m : nat) (w : ValidationWarning) :
  In w (warnings (validateNoteLine cfg l m)) -> warn_line w = Some m.
Proof.
  unfold validateNoteLine. destruct (is_empty (trim l)).
  - cbn [warnings In]. intros [<- | []]. reflexivity.
  - destruct (validate_notes_loop cfg m 1 (parseNotesFromLine cfg l)) as [e2 w2] eqn:E.
    cbn [warnings]. intros Hin. apply in_app_or in Hin as [Hin | Hin].
    + destruct (b_warnings_spec cfg m 1 _ w Hin) as (j & _ & _ & H & _). exact H.
    + apply (validate_notes_loop_warning_lines cfg m 1 (parseNotesFromLine cfg l)).
      rewrite E. exact Hin.
Qed.

Lemma validateNoteLine_error_lines (cfg : ParseConfig) (l : string) (m : nat) (e : ValidationError) :
  In e (errors (validateNoteLine cfg l m)) -> err_line e = Some m.
Proof.
  unfold validateNoteLine. destruct (is_empty (trim l)); [cbn [errors In]; contradiction |].
  destruct (validate_notes_loop cfg m 1 (parseNotesFromLine cfg l)) as [e2 w2] eqn:E.
  cbn [errors]. intros Hin. apply in_app_or in Hin as [Hin | Hin].
  - destruct (maxNotesPerLine cfg <? _); cbn [In] in Hin; [destruct Hin as [<- | []]; reflexivity | contradiction].
  - apply (validate_notes_loop_error_lines cfg m 1 (parseNotesFromLine cfg l)).
    rewrite E. exact Hin.
Qed.

Lemma validateNoteLine_errors_at (cfg : ParseConfig) (l : string) (m p : nat) (e : ValidationError) :
  In e (errors (validateNoteLine cfg l m)) -> err_position e = Some p ->
  exists n, nth_error (parseNotesFromLine cfg l) (p - 1) = Some n /\ 1 <= p
    /\ In e (errors (validateNote cfg n m p)).
Proof.
  unfold validateNoteLine. destruct (is_empty (trim l)); [cbn [errors In]; contradiction |].
  destruct (validate_notes_loop cfg m 1 (parseNotesFromLine cfg l)) as [e2 w2] eqn:E.
  cbn [errors]. intros Hin Hp. apply in_app_or in Hin as [Hin | Hin].
  - destruct (maxNotesPerLine cfg <? _); cbn [In] in Hin;
      [destruct Hin as [<- | []]; discriminate | contradiction].
  - apply (validate_notes_loop_errors_at cfg m (parseNotesFromLine cfg l) 1 e p); [| exact Hp].
    rewrite E. exact Hin.
Qed.

Lemma validate_lines_warning_lines (cfg : ParseConfig) (n : nat) (ls : list string) (w : ValidationWarning) :
  In w (snd (validate_lines cfg n ls)) -> exists k, warn_line w = Some k /\ n <= k.
Proof.
  revert n; induction ls as [| l ls IH]; intros n; simpl; [contradiction |].
  destruct (validate_lines cfg (S n) ls) as [es ws] eqn:E. simpl. intros H.
  apply in_app_or in H as [H | H].
  - exists n. split; [eapply validateNoteLine_warning_lines; exact H | lia].
  - destruct (IH (S n)) as (k & Hk & Hle); [rewrite E; exact H |]. exists k. split; [exact Hk | lia].
Qed.

(** Filtering the warnings of the line loop of [validateInput] on one line
    number keeps that line's warnings only. *)
Lemma validate_lines_filter (cfg : ParseConfig) (f : ValidationWarning -> bool) (m : nat)
  (Hf : forall w, f w = true -> warn_line w = Some m) :
  forall ls n l, nth_error ls (m - n) = Some l -> n <= m ->
  filter f (snd (validate_lines cfg n ls)) = filter f (warnings (validateNoteLine cfg l m)).
Proof.
  induction ls as [| x ls IH]; intros n l Hl Hle; [destruct (m - n); discriminate |].
  simpl. destruct (validate_lines cfg (S n) ls) as [es ws] eqn:E. simpl.
  rewrite filter_app.
  destruct (Nat.eq_dec m n) as [-> | Hne].
  - rewrite Nat.sub_diag in Hl. injection Hl as ->.
    rewrite (filter_none f ws), app_nil_r; [reflexivity |].
    intros w Hw. destruct (f w) eqn:Efw; [| reflexivity].
    destruct (validate_lines_warning_lines cfg (S n) ls w) as (k & Hk & Hkle); [rewrite E; exact Hw |].
    rewrite (Hf w Efw) in Hk. injection Hk as <-. lia.
  - rewrite (filter_none f (warnings (validateNoteLine cfg x n))).
    + simpl. change ws with (snd (es, ws)). rewrite <- E.
      apply IH; [| lia]. replace (m - n) with (S (m - S n)) in Hl by lia. exact Hl.
    + intros w Hw. destruct (f w) eqn:Efw; [| reflexivity].
      exfalso. apply Hf in Efw.
      rewrite (validateNoteLine_warning_lines cfg x n w Hw) in Efw. injection Efw. lia.
Qed.

Lemma validate_lines_errors_at (cfg : ParseConfig) (m : nat) :
  forall ls n e, In e (fst (validate_lines cfg n ls)) -> err_line e = Some m ->
  exists l, nth_error ls (m - n) = Some l /\ n <= m /\ In e (errors (validateNoteLine cfg l m)).
Proof.
  induction ls as [| x ls IH]; intros n e; simpl; [contradiction |].
  destruct (validate_lines cfg (S n) ls) as [es ws] eqn:E. simpl.
  intros H Hm. apply in_app_or in H as [H | H].
  - rewrite (validateNoteLine_error_lines cfg x n e H) in Hm. injection Hm as ->.
    exists x. rewrite Nat.sub_diag. split; [reflexivity | split; [lia | exact H]].
  - destruct (IH (S n) e) as (l & Hl & Hle & Hin); [rewrite E; exact H | exact Hm |].
    exists l. replace (m - n) with (S (m - S n)) by lia.
    split; [exact Hl | split; [lia | exact Hin]].
Qed.

Lemma validate_lines_in (cfg : ParseConfig) :
  forall ls n q l e, nth_error ls q = Some l -> In e (errors (validateNoteLine cfg l (n + q))) ->
  In e (fst (validate_lines cfg n ls)).
Proof.
  induction ls as [| y ls IH]; intros n q l e Hq Hin; [destruct q; discriminate |].
  simpl. destruct (validate_lines cfg (S n) ls) as [es ws] eqn:E. simpl.
  apply in_or_app. destruct q as [| q].
  - left. injection Hq as ->. rewrite Nat.add_0_r in Hin. exact Hin.
  - right. change es with (fst (es, ws)). rewrite <- E.
    apply (IH (S n) q l e Hq). rewrite Nat.add_succ_r in Hin. exact Hin.
Qed.

Lemma validateInput_warnings (cfg : ParseConfig) (input : string) :
  is_empty (trim input) = false ->
  warnings (validateInput cfg input) = snd (validate_lines cfg 2 (tl (preprocessInput input))).
Proof.
  intros H. unfold validateInput. rewrite H. cbv zeta.
  destruct (validate_lines cfg 2 (tl (preprocessInput input))) as [e3 w3]. reflexivity.
Qed.

Lemma validateInput_errors (cfg : ParseConfig) (input : string) (e : ValidationError) :
  is_empty (trim input) = false ->
  (In e (fst (validate_lines cfg 2 (tl (preprocessInput input)))) -> In e (errors (validateInput cfg input)))
  /\ (In e (errors (validateInput cfg input)) -> err_line e <> None ->
      In e (fst (validate_lines cfg 2 (tl (preprocessInput input))))).
Proof.
  intros H. unfold validateInput. rewrite H. cbv zeta.
  destruct (validate_lines cfg 2 (tl (preprocessInput input))) as [e3 w3]. cbn [errors fst].
  split.
  - intros Hin. apply in_or_app. right. apply in_or_app. right. exact Hin.
  - intros Hin Hl. apply in_app_or in Hin as [Hin | Hin].
    + destruct (List.length _ <? 2); cbn [In] in Hin; [destruct Hin as [<- | []]; contradiction | contradiction].
    + apply in_app_or in Hin as [Hin | Hin]; [| exact Hin].
      destruct (maxLines cfg <? _); cbn [In] in Hin; [destruct Hin as [<- | []]; contradiction | contradiction].
Qed.

Lemma b_warnings_off (cfg : ParseConfig) (m k : nat) (toks : list string) :
  autoConvertB cfg = false -> b_warnings cfg m k toks = [].
Proof.
  intros Ha. revert k. induction toks as [| t toks IH]; intros k; simpl; [reflexivity |].
  rewrite Ha, andb_false_r, IH. reflexivity.
Qed.

Lemma b_warnings_count (cfg : ParseConfig) (m : nat) (toks : list string) :
  autoConvertB cfg = true ->
  forall k j t, nth_error toks j = Some t -> toUpperCase t = "B" ->
  List.length (filter (conversion_at m (k + j)) (b_warnings cfg m k toks)) = 1.
Proof.
  intros Ha. induction toks as [| t0 toks IH]; intros k j t Hj Ht; [destruct j; discriminate |].
  cbn [b_warnings]. rewrite filter_app, length_app.
  destruct j as [| j].
  - injection Hj as ->. rewrite Nat.add_0_r, Ht, Ha. cbn [String.eqb andb Ascii.eqb Bool.eqb].
    cbn [filter]. unfold conversion_at at 1. cbn [warn_type warn_line warn_position WarningType_eqb opt_nat_eqb].
    rewrite !Nat.eqb_refl. cbn [andb List.length].
    rewrite (filter_none _ (b_warnings cfg m (S k) toks)); [reflexivity |].
    intros w Hw. destruct (conversion_at m k w) eqn:Ew; [| reflexivity].
    destruct (b_warnings_spec cfg m (S k) toks w Hw) as (j' & _ & _ & _ & Hp & _).
    apply conversion_at_spec in Ew as (_ & _ & Hp'). rewrite Hp in Hp'. injection Hp'. lia.
  - rewrite Nat.add_succ_r, <- Nat.add_succ_l, (IH (S k) j t Hj Ht).
    destruct (String.eqb (toUpperCase t0) "B" && autoConvertB cfg); [| reflexivity].
    cbn [filter]. unfold conversion_at at 1.
    cbn [warn_type warn_line warn_position WarningType_eqb opt_nat_eqb].
    replace (k =? S k + j) with false by (symmetry; apply Nat.eqb_neq; lia).
    rewrite andb_false_r. reflexivity.
Qed.

Lemma convertNotes_off (cfg : ParseConfig) (ns : list string) :
  autoConvertB cfg = false -> snd (convertNotes cfg ns) = [].
Proof.
  intros Ha. induction ns as [| n ns IH]; simpl; [reflexivity |].
  destruct (convertNotes cfg ns) as [ns' ws'] eqn:E. simpl in IH.
  rewrite Ha, andb_false_r. exact IH.
Qed.

Lemma upper_char_B (c : ascii) : upper_char c = "B"%char -> c = "b"%char \/ c = "B"%char.
Proof.
  destruct c as [[] [] [] [] [] [] [] []]; vm_compute; intros H;
    first [discriminate | left; reflexivity | right; reflexivity].
Qed.

Lemma toUpperCase_B (t : string) : toUpperCase t = "B" -> t = "b" \/ t = "B".
Proof.
  destruct t as [| c [| c' t]]; simpl; intros H; try discriminate.
  - injection H as Hc. destruct (upper_char_B c Hc) as [-> | ->]; auto.
Qed.

Lemma validateNote_B_off (cfg : ParseConfig) (n : string) (m p : nat) :
  toUpperCase n = "B" -> autoConvertB cfg = false ->
  In (mkError UNSUPPORTED_NOTE
        ("Unsupported note '" ++ n ++ "' at line " ++ show_nat m ++ ", position " ++ show_nat p)
        (Some m) (Some p) (Some ("Use Bb instead of B for 4-hole ocarinas" :: SUPPORTED_NOTES)))
     (errors (validateNote cfg n m p)).
Proof.
  intros HB Ha.
  assert (Hi : includes SUPPORTED_NOTES (toUpperCase (charAt0 n) ++ toLowerCase (slice1 n)) = false)
    by (destruct (toUpperCase_B n HB) as [-> | ->]; reflexivity).
  unfold validateNote. cbv zeta. rewrite Hi, HB, Ha. cbn [String.eqb Ascii.eqb Bool.eqb errors In].
  left. reflexivity.
Qed.

Lemma normalize_case_B (t : string) : toUpperCase t = "B" -> normalize_case t = t.
Proof. intros HB. destruct (toUpperCase_B t HB) as [-> | ->]; reflexivity. Qed.

Lemma token_input_nonblank (input line tok : string) (i j : nat) :
  nth_error (preprocessInput input) i = Some line -> nth_error (tokenize line) j = Some tok ->
  is_empty (trim input) = false /\ is_empty (trim line) = false.
Proof.
  intros Hline Htok.
  assert (Hl : is_empty (trim line) = false).
  { destruct (is_empty (trim line)) eqn:E; [| reflexivity].
    rewrite (tokenize_blank line E) in Htok. destruct j; discriminate. }
  split; [| exact Hl].
  destruct (is_empty (trim input)) eqn:E; [| reflexivity].
  apply input_blank_lines in E. rewrite Forall_forall in E.
  rewrite (E line (nth_error_In _ _ Hline)) in Hl. discriminate.
Qed.

Lemma tl_nth_error {A : Type} (l : list A) (i : nat) (x : A) :
  1 <= i -> nth_error l i = Some x -> nth_error (tl l) (i - 1) = Some x.
Proof.
  intros Hi. destruct l as [| y l]; [destruct i; discriminate |].
  destruct i as [| i]; [lia |]. simpl. rewrite Nat.sub_0_r. exact id.
Qed.

(** C4: take a token at 0-based position [j] of a note line, i.e. line
    [i >= 1] of the preprocessed input, and let it read "B" once upper-cased.
    With autoConvertB on, convertNotes turns it into "Bb",
    validateInput reports exactly one NoteConversion warning at line [i + 1]
    and position [j + 1], and no error at all at that line and position.
    With autoConvertB off, convertNotes leaves the token unchanged and emits no
    warning, validateInput has no NoteConversion warning at that line and
    position, and it reports an UnsupportedNote error there whose
    suggestions include "Use Bb instead of B for 4-hole ocarinas". *)
Theorem b_token_conversion (cfg : ParseConfig) (input line tok : string) (i j : nat)
  (Hi : 1 <= i)
  (Hline : nth_error (preprocessInput input) i = Some line)
  (Htok : nth_error (tokenize line) j = Some tok)
  (HB : toUpperCase tok = "B") :
  (autoConvertB cfg = true ->
     nth_error (fst (convertNotes cfg (tokenize line))) j = Some "Bb"
     /\ List.length (filter (conversion_at (S i) (S j)) (warnings (validateInput cfg input))) = 1
     /\ (forall e, In e (errors (validateInput cfg input)) ->
           err_line e = Some (S i) -> err_position e <> Some (S j)))
  /\ (autoConvertB cfg = false ->
     nth_error (fst (convertNotes cfg (tokenize line))) j = Some tok
     /\ snd (convertNotes cfg (tokenize line)) = []
     /\ filter (conversion_at (S i) (S j)) (warnings (validateInput cfg input)) = []
     /\ exists e sug, In e (errors (validateInput cfg input))
          /\ err_type e = UNSUPPORTED_NOTE /\ err_line e = Some (S i)
          /\ err_position e = Some (S j) /\ err_suggestions e = Some sug
          /\ In "Use Bb instead of B for 4-hole ocarinas" sug).
Proof.
  destruct (token_input_nonblank input line tok i j Hline Htok) as [Hin Hl].
  assert (Htl : nth_error (tl (preprocessInput input)) (S i - 2) = Some line)
    by (replace (S i - 2) with (i - 1) by lia; apply tl_nth_error; assumption).
  assert (Hcv : nth_error (fst (convertNotes cfg (tokenize line))) j = Some (convert_one cfg tok))
    by (rewrite convertNotes_fst, nth_error_map, Htok; reflexivity).
  assert (Hnotes : nth_error (parseNotesFromLine cfg line) j
                   = Some (normalize_case (convert_one cfg tok)))
    by (rewrite parseNotesFromLine_map, nth_error_map, Htok; reflexivity).
  assert (HBb : String.eqb (toUpperCase tok) "B" = true) by (rewrite HB; reflexivity).
  rewrite validateInput_warnings by exact Hin.
  rewrite (validate_lines_filter cfg (conversion_at (S i) (S j)) (S i)
             (fun w Hw => proj1 (proj2 (conversion_at_spec _ _ w Hw))) _ 2 line Htl) by lia.
  unfold validateNoteLine. rewrite Hl. cbv zeta.
  destruct (validate_notes_loop cfg (S i) 1 (parseNotesFromLine cfg line)) as [e2 w2] eqn:E2.
  cbn [warnings]. rewrite filter_app.
  rewrite (filter_none _ w2), app_nil_r.
  2:{ intros w Hw. destruct (conversion_at (S i) (S j) w) eqn:Ew; [| reflexivity].
      apply conversion_at_spec in Ew as [Ew _].
      exfalso. apply (validate_notes_loop_no_conversion cfg (S i) 1 (parseNotesFromLine cfg line) w);
        [rewrite E2; exact Hw | exact Ew]. }
  split.
  - intros Ha.
    assert (Hc : convert_one cfg tok = "Bb") by (unfold convert_one; rewrite HBb, Ha; reflexivity).
    split; [rewrite Hcv, Hc; reflexivity |].
    split; [apply (b_warnings_count cfg (S i) (tokenize line) Ha 1 j tok Htok HB) |].
    intros e He Hel Hep.
    apply (validateInput_errors cfg input e Hin) in He; [| rewrite Hel; discriminate].
    destruct (validate_lines_errors_at cfg (S i) _ 2 e He Hel) as (l & Hl' & _ & He').
    rewrite Htl in Hl'. injection Hl' as <-.
    destruct (validateNoteLine_errors_at cfg line (S i) (S j) e He' Hep) as (n & Hn & _ & Hne).
    rewrite Nat.sub_1_r in Hn. cbn [Nat.pred] in Hn.
    rewrite Hnotes, Hc in Hn. injection Hn as <-.
    exact Hne.
  - intros Ha.
    assert (Hc : convert_one cfg tok = tok) by (unfold convert_one; rewrite Ha, andb_false_r; reflexivity).
    split; [rewrite Hcv, Hc; reflexivity |].
    split; [apply convertNotes_off, Ha |].
    split; [rewrite b_warnings_off by exact Ha; reflexivity |].
    eexists. eexists. split.
    + apply (validateInput_errors cfg input _ Hin).
      apply (validate_lines_in cfg _ 2 (i - 1) line).
      * apply tl_nth_error; assumption.
      * replace (2 + (i - 1)) with (S i) by lia.
        unfold validateNoteLine. rewrite Hl.
        destruct (validate_notes_loop cfg (S i) 1 (parseNotesFromLine cfg line)) as [e2' w2'] eqn:E2'.
        cbn [errors]. apply in_or_app. right.
        change e2' with (fst (e2', w2')). rewrite <- E2'.
        apply (validate_notes_loop_in cfg (S i) _ 1 j tok).
        -- rewrite Hnotes, Hc, normalize_case_B by exact HB. reflexivity.
        -- apply validateNote_B_off; assumption.
    + cbn [err_type err_line err_position err_suggestions].
      repeat split. left. reflexivity.
Qed.

Lemma b_token_conversion_witness :
  nth_error (preprocessInput ("Song" ++ newlines 1 ++ "F b, G")) 1 = Some "F b, G"
  /\ nth_error (tokenize "F b, G") 1 = Some "b"
  /\ toUpperCase "b" = "B"
  /\ List.length (filter (conversion_at 2 2)
        (warnings (validateInput DEFAULT_CONFIG ("Song" ++ newlines 1 ++ "F b, G")))) = 1.
Proof.
  assert (H1 : nth_error (preprocessInput ("Song" ++ newlines 1 ++ "F b, G")) 1 = Some "F b, G")
    by (vm_compute; reflexivity).
  assert (H2 : nth_error (tokenize "F b, G") 1 = Some "b") by (vm_compute; reflexivity).
  assert (H3 : toUpperCase "b" = "B") by reflexivity.
  split; [exact H1 |]. split; [exact H2 |]. split; [exact H3 |].
  exact (proj1 (proj2 (proj1 (b_token_conversion DEFAULT_CONFIG _ "F b, G" "b" 1 1
                                (le_n 1) H1 H2 H3) eq_refl))).
Defined.

End ConversionFacts.

Module ParserExtras.
Import Js Tok Ref Ref2 StrFacts TokFacts ParserFacts ConversionFacts NoteParser.

(** [convertNotes] keeps one note per input note. With [autoConvertB] on,
    it emits one [NOTE_CONVERSION] warning, with no line or position, per
    note that upper-cases to ["B"], and no converted note upper-cases to
    ["B"]; with it off, it returns the notes unchanged and no warning. *)
Theorem convertNotes_spec (cfg : ParseConfig) (ns : list string) :
  List.length (fst (convertNotes cfg ns)) = List.length ns
  /\ (autoConvertB cfg = true ->
      List.length (snd (convertNotes cfg ns)) = count_upper_B ns
      /\ Forall (fun n => toUpperCase n <> "B") (fst (convertNotes cfg ns))
      /\ Forall (fun w => w = mkWarning NOTE_CONVERSION
                   "Converted 'B' to 'Bb' (4-hole ocarinas use Bb instead of B)" None None)
                (snd (convertNotes cfg ns)))
  /\ (autoConvertB cfg = false -> convertNotes cfg ns = (ns, [])).
Proof.
  induction ns as [| n ns IH]; simpl.
  - repeat split; auto.
  - destruct (convertNotes cfg ns) as [ns' ws]. simpl in IH.
    destruct IH as (IH1 & IH2 & IH3). unfold count_upper_B in *; simpl.
    destruct (String.eqb (toUpperCase n) "B") eqn:EB; destruct (autoConvertB cfg) eqn:EA; simpl.
    + repeat split; try discriminate.
      * rewrite IH1; reflexivity.
      * destruct (IH2 eq_refl) as (? & _ & _); simpl; lia.
      * constructor; [discriminate | apply (IH2 eq_refl)].
      * constructor; [reflexivity | apply (IH2 eq_refl)].
    + repeat split; try discriminate.
      * rewrite IH1; reflexivity.
      * intros _. injection (IH3 eq_refl) as -> ->. reflexivity.
    + repeat split; try discriminate.
      * rewrite IH1; reflexivity.
      * apply (IH2 eq_refl).
      * constructor; [apply String.eqb_neq, EB | apply (IH2 eq_refl)].
      * apply (IH2 eq_refl).
    + repeat split; try discriminate.
      * rewrite IH1; reflexivity.
      * intros _. injection (IH3 eq_refl) as -> ->. reflexivity.
Qed.

Lemma split_lf_length (cur s : string) :
  List.length (split_lf cur s) = S (count_char (ascii_of_nat 10) s).
Proof.
  revert cur; induction s as [| c t IH]; intros cur; simpl; [reflexivity |].
  destruct (Ascii.eqb c (ascii_of_nat 10)); simpl; rewrite IH; reflexivity.
Qed.

Lemma split_lf_no_lf (cur s : string) :
  all_chars no_lf cur = true -> Forall (fun l => all_chars no_lf l = true) (split_lf cur s).
Proof.
  revert cur; induction s as [| c t IH]; intros cur Hc; simpl; [constructor; [exact Hc | constructor] |].
  destruct (Ascii.eqb c (ascii_of_nat 10)) eqn:E.
  - constructor; [apply drop_final_cr_all, Hc | apply IH; reflexivity].
  - apply IH. unfold snoc. rewrite all_chars_append, Hc. simpl. unfold no_lf. rewrite E. reflexivity.
Qed.

(** [preprocessInput] yields one line per line feed plus one; each line is
    trimmed and holds no line feed. *)
Theorem preprocessInput_lines (input : string) :
  List.length (preprocessInput input) = S (count_char (ascii_of_nat 10) input)
  /\ Forall (fun l => trim l = l /\ all_chars no_lf l = true) (preprocessInput input).
Proof.
  unfold preprocessInput. split.
  - rewrite length_map. apply split_lf_length.
  - pose proof (split_lf_no_lf EmptyString input eq_refl) as H.
    induction H as [| l ls Hl _ IH]; simpl; constructor; auto.
    split; [apply trim_idem | apply FilenameFacts.trim_all_chars, Hl].
Qed.

Lemma substring_all_chars (m : nat) (s : string) :
  String.length s <= m -> String.substring 0 m s = s.
Proof.
  revert m; induction s as [| c t IH]; intros m Hm; destruct m; simpl in *; try reflexivity; try lia.
  rewrite IH; [reflexivity | lia].
Qed.

Lemma substring_suffix (k m : nat) (s : string) :
  String.length s <= k + m -> exists a, s = a ++ String.substring k m s.
Proof.
  revert k; induction s as [| c t IH]; intros k Hk.
  - exists EmptyString. destruct k, m; reflexivity.
  - destruct k as [| k].
    + exists EmptyString. rewrite substring_all_chars; [reflexivity | exact Hk].
    + simpl in Hk. destruct (IH k ltac:(lia)) as [a Ha]. exists (String c a).
      simpl. rewrite <- Ha. reflexivity.
Qed.

Lemma ltrim_suffix (s : string) : exists a, s = a ++ ltrim s.
Proof.
  induction s as [| c t [a IH]]; simpl; [exists EmptyString; reflexivity |].
  destruct (is_ws c); [exists (String c a); simpl; rewrite <- IH | exists EmptyString]; reflexivity.
Qed.

Lemma rtrim_prefix (s : string) : exists b, s = rtrim s ++ b.
Proof.
  induction s as [| c t [b IH]]; [exists EmptyString; reflexivity |].
  rewrite rtrim_cons. destruct (rtrim t) as [| c' t'] eqn:E.
  - destruct (is_ws c); [exists (String c t) | exists t]; reflexivity.
  - exists b. simpl. f_equal. exact IH.
Qed.

Lemma trim_infix (s : string) : infix (trim s) s.
Proof.
  unfold trim. destruct (ltrim_suffix s) as [a Ha]. destruct (rtrim_prefix (ltrim s)) as [b Hb].
  exists a, b. rewrite <- Hb. exact Ha.
Qed.

Lemma infix_trans (t u s : string) : infix t u -> infix u s -> infix t s.
Proof.
  intros (a & b & Hu) (c & d & Hs). exists (c ++ a), (b ++ d).
  rewrite Hs, Hu, !append_assoc. reflexivity.
Qed.

Lemma strip_prefix_ci_infix (p s r : string) : strip_prefix_ci p s = Some r -> infix r s.
Proof.
  unfold strip_prefix_ci. destruct (String.eqb _ p); intros H; [| discriminate].
  injection H as <-.
  destruct (ltrim_suffix (String.substring (String.length p) (String.length s) s)) as [a Ha].
  destruct (substring_suffix (String.length p) (String.length s) s ltac:(lia)) as [c Hc].
  exists (c ++ a), EmptyString. rewrite append_empty_r, append_assoc, <- Ha. exact Hc.
Qed.

Lemma strip_title_prefix_infix (s : string) : infix (strip_title_prefix s) s.
Proof.
  unfold strip_title_prefix.
  destruct (strip_prefix_ci "title:" s) eqn:E1; [eapply strip_prefix_ci_infix; eauto |].
  destruct (strip_prefix_ci "song:" s) eqn:E2; [eapply strip_prefix_ci_infix; eauto |].
  destruct (strip_prefix_ci "name:" s) eqn:E3; [eapply strip_prefix_ci_infix; eauto |].
  exists EmptyString, EmptyString. rewrite append_empty_r. reflexivity.
Qed.

(** [extractTitle] returns either the fallback ["Untitled Song"] or a
    non-empty piece of the first line with no surrounding white space. *)
Theorem extractTitle_from_first_line (ls : list string) :
  trim (extractTitle ls) = extractTitle ls
  /\ (extractTitle ls = "Untitled Song"
      \/ (extractTitle ls <> EmptyString /\ infix (extractTitle ls) (hd EmptyString ls))).
Proof.
  destruct ls as [| l0 ls]; [split; [reflexivity | left; reflexivity] |].
  unfold extractTitle. cbv zeta.
  destruct (is_empty (trim l0)); [split; [reflexivity | left; reflexivity] |].
  destruct (is_empty (trim (strip_title_prefix (trim l0)))) eqn:E;
    [split; [reflexivity | left; reflexivity] |].
  split; [apply trim_idem |]. right. split.
  - intros H. rewrite H in E. discriminate.
  - simpl. eapply infix_trans; [apply trim_infix |].
    eapply infix_trans; [apply strip_title_prefix_infix | apply trim_infix].
Qed.

Lemma words_go_word (w : string) :
  no_sep w = true -> forall cur s, words_go cur (w ++ s) = words_go (cur ++ w) s.
Proof.
  induction w as [| c w IH]; intros Hw cur s.
  - rewrite append_empty_r. reflexivity.
  - unfold no_sep in Hw. simpl in Hw. apply andb_true_iff in Hw as [Hc Hw].
    simpl. apply negb_true_iff in Hc. rewrite Hc, IH by exact Hw.
    unfold snoc. rewrite append_assoc. reflexivity.
Qed.

Lemma words_join (xs : list string) :
  Forall (fun x => x <> EmptyString /\ no_sep x = true) xs -> words (join " " xs) = xs.
Proof.
  unfold words. induction xs as [| x xs IH]; intros H; [reflexivity |].
  inversion H as [| ? ? [Hx Hs] Hrest]; subst.
  destruct xs as [| y rest].
  - simpl. rewrite <- (append_empty_r x), words_go_word by exact Hs.
    rewrite append_empty_r. simpl. destruct x; [contradiction | reflexivity].
  - change (join " " (x :: y :: rest)) with (x ++ " " ++ join " " (y :: rest)).
    rewrite words_go_word by exact Hs.
    change (words_go x (String " "%char (join " " (y :: rest))) = x :: y :: rest).
    assert (Hsp : is_sep " "%char = true) by reflexivity.
    cbn [words_go]. rewrite Hsp, IH by exact Hrest. destruct x; [contradiction | reflexivity].
Qed.

Lemma is_sep_upper (c : ascii) : is_sep (upper_char c) = is_sep c.
Proof. destruct c as [[] [] [] [] [] [] [] []]; vm_compute; reflexivity. Qed.

Lemma no_sep_upper (s : string) : no_sep (toUpperCase s) = no_sep s.
Proof.
  unfold no_sep, toUpperCase. induction s as [| c t IH]; simpl; [reflexivity |].
  rewrite is_sep_upper, IH. reflexivity.
Qed.

Lemma tokenize_pieces (line : string) :
  Forall (fun x => x <> EmptyString /\ no_sep x = true) (tokenize line).
Proof.
  unfold tokenize, split_seps.
  pose proof (split_go_pieces EmptyString false line eq_refl) as H.
  induction H as [| p ps Hp _ IH]; simpl; [constructor |].
  rewrite (trim_no_ws p (no_sep_no_ws p Hp)).
  destruct p as [| c t]; simpl; [exact IH |].
  constructor; [split; [discriminate | exact Hp] | exact IH].
Qed.

Lemma toUpperCase_nonempty (s : string) : s <> EmptyString -> toUpperCase s <> EmptyString.
Proof. destruct s; simpl; [contradiction | discriminate]. Qed.

Lemma parsed_token_shape (cfg : ParseConfig) (t : string) :
  t <> EmptyString /\ no_sep t = true ->
  normalize_case (convert_one cfg t) <> EmptyString
  /\ no_sep (normalize_case (convert_one cfg t)) = true.
Proof.
  intros [Hne Hs].
  assert (Hx : convert_one cfg t <> EmptyString /\ no_sep (convert_one cfg t) = true).
  { unfold convert_one. destruct (_ && _); [split; [discriminate | reflexivity] | auto]. }
  destruct Hx as [Hxne Hxs]. unfold normalize_case.
  destruct (String.eqb (toUpperCase (convert_one cfg t)) "BB"); [split; [discriminate | reflexivity] |].
  destruct (includes SUPPORTED_NOTES _); [| auto].
  split; [apply toUpperCase_nonempty, Hxne | rewrite no_sep_upper; exact Hxs].
Qed.

Lemma toUpperCase_idem (s : string) : toUpperCase (toUpperCase s) = toUpperCase s.
Proof.
  unfold toUpperCase. rewrite map_chars_comp. apply map_chars_ext. apply upper_upper_char.
Qed.

Lemma normalize_case_idem (n : string) :
  normalize_case (normalize_case n) = normalize_case n.
Proof.
  unfold normalize_case.
  destruct (String.eqb (toUpperCase n) "BB") eqn:E1; [reflexivity |].
  destruct (includes SUPPORTED_NOTES (toUpperCase n)) eqn:E2.
  - rewrite toUpperCase_idem, E1, E2. reflexivity.
  - rewrite E1, E2. reflexivity.
Qed.

Lemma convert_normalize_fixed (cfg : ParseConfig) (t : string) :
  convert_one cfg (normalize_case (convert_one cfg t)) = normalize_case (convert_one cfg t).
Proof.
  unfold convert_one at 1.
  destruct (autoConvertB cfg) eqn:EA; [| rewrite andb_false_r; reflexivity].
  rewrite andb_true_r.
  destruct (String.eqb (toUpperCase (normalize_case (convert_one cfg t))) "B") eqn:E; [| reflexivity].
  exfalso. apply String.eqb_eq in E.
  unfold normalize_case in E.
  destruct (String.eqb (toUpperCase (convert_one cfg t)) "BB") eqn:E1; [discriminate |].
  destruct (includes SUPPORTED_NOTES (toUpperCase (convert_one cfg t))) eqn:E2.
  - rewrite toUpperCase_idem in E. rewrite E in E2. discriminate.
  - unfold convert_one in E. rewrite EA, andb_true_r in E.
    destruct (String.eqb (toUpperCase t) "B") eqn:EB; [discriminate |].
    rewrite E in EB. discriminate.
Qed.

(** Writing the notes parsed from a line back out, separated by spaces, and
    parsing that text again gives the same notes. *)
Theorem parseNotesFromLine_reparse (cfg : ParseConfig) (line : string) :
  parseNotesFromLine cfg (join " " (parseNotesFromLine cfg line)) = parseNotesFromLine cfg line.
Proof.
  rewrite (parseNotesFromLine_map cfg line).
  rewrite parseNotesFromLine_map, tokenize_words, words_join.
  - rewrite map_map. apply map_ext. intros t.
    rewrite convert_normalize_fixed. apply normalize_case_idem.
  - pose proof (tokenize_pieces line) as H.
    induction H as [| t ts Ht _ IH]; simpl; constructor; [apply parsed_token_shape, Ht | exact IH].
Qed.

Lemma validateNote_warning_types (cfg : ParseConfig) (n : string) (m p : nat) :
  Forall (fun w => warn_type w = NOTE_CONVERSION) (warnings (validateNote cfg n m p)).
Proof.
  unfold validateNote. cbv zeta.
  destruct (includes SUPPORTED_NOTES _); [constructor |].
  destruct (String.eqb (toUpperCase n) "B"); [destruct (autoConvertB cfg) |]; repeat constructor.
Qed.

Lemma validateNote_error_types (cfg : ParseConfig) (n : string) (m p : nat) :
  Forall (fun e => err_type e = UNSUPPORTED_NOTE) (errors (validateNote cfg n m p)).
Proof.
  unfold validateNote. cbv zeta.
  destruct (includes SUPPORTED_NOTES _); [constructor |].
  destruct (String.eqb (toUpperCase n) "B"); [destruct (autoConvertB cfg) |]; repeat constructor.
Qed.

Lemma validate_notes_loop_warnings (cfg : ParseConfig) (m k : nat) (ns : list string) :
  snd (validate_notes_loop cfg m k ns) = [].
Proof.
  revert k; induction ns as [| n ns IH]; intros k; simpl; [reflexivity |].
  specialize (IH (S k)). destruct (validate_notes_loop cfg m (S k) ns) as [es ws].
  simpl in *. rewrite IH, app_nil_r. apply filter_none.
  intros w Hw. pose proof (validateNote_warning_types cfg n m k) as HF.
  rewrite Forall_forall in HF. unfold not_conversion. rewrite (HF w Hw). reflexivity.
Qed.

Lemma validate_notes_loop_error_types (cfg : ParseConfig) (m k : nat) (ns : list string) :
  Forall (fun e => err_type e = UNSUPPORTED_NOTE) (fst (validate_notes_loop cfg m k ns)).
Proof.
  revert k; induction ns as [| n ns IH]; intros k; simpl; [constructor |].
  specialize (IH (S k)). destruct (validate_notes_loop cfg m (S k) ns) as [es ws].
  simpl in *. apply Forall_app. split; [apply validateNote_error_types | exact IH].
Qed.

Lemma parseNotesFromLine_length (cfg : ParseConfig) (l : string) :
  List.length (parseNotesFromLine cfg l) = List.length (tokenize l).
Proof. rewrite parseNotesFromLine_map, length_map. reflexivity. Qed.

Lemma validateNoteLine_warning_pos (cfg : ParseConfig) (l : string) (m p : nat) (w : ValidationWarning) :
  In w (warnings (validateNoteLine cfg l m)) -> warn_position w = Some p ->
  1 <= p <= List.length (tokenize l).
Proof.
  unfold validateNoteLine. destruct (is_empty (trim l)).
  - cbn [warnings In]. intros [<- | []]. discriminate.
  - destruct (validate_notes_loop cfg m 1 (parseNotesFromLine cfg l)) as [e2 w2] eqn:E.
    cbn [warnings]. intros Hin Hp. apply in_app_or in Hin as [Hin | Hin].
    + destruct (b_warnings_spec cfg m 1 (tokenize l) w Hin) as (j & Hj & _ & _ & Hpos & _).
      rewrite Hp in Hpos. injection Hpos as ->. lia.
    + pose proof (validate_notes_loop_warnings cfg m 1 (parseNotesFromLine cfg l)) as H0.
      rewrite E in H0. simpl in H0. subst w2. contradiction.
Qed.

Lemma validate_lines_warnings_at (cfg : ParseConfig) (m : nat) :
  forall ls n w, In w (snd (validate_lines cfg n ls)) -> warn_line w = Some m ->
  exists l, nth_error ls (m - n) = Some l /\ n <= m /\ In w (warnings (validateNoteLine cfg l m)).
Proof.
  induction ls as [| x ls IH]; intros n w; simpl; [contradiction |].
  destruct (validate_lines cfg (S n) ls) as [es ws] eqn:E. simpl.
  intros H Hm. apply in_app_or in H as [H | H].
  - rewrite (validateNoteLine_warning_lines cfg x n w H) in Hm. injection Hm as ->.
    exists x. rewrite Nat.sub_diag. split; [reflexivity | split; [lia | exact H]].
  - destruct (IH (S n) w) as (l & Hl & Hle & Hin); [rewrite E; exact H | exact Hm |].
    exists l. replace (m - n) with (S (m - S n)) by lia.
    split; [exact Hl | split; [lia | exact Hin]].
Qed.

Lemma validate_lines_error_lines (cfg : ParseConfig) (n : nat) (ls : list string) (e : ValidationError) :
  In e (fst (validate_lines cfg n ls)) -> exists k, err_line e = Some k.
Proof.
  revert n; induction ls as [| l ls IH]; intros n; simpl; [contradiction |].
  destruct (validate_lines cfg (S n) ls) as [es ws] eqn:E. simpl. intros H.
  apply in_app_or in H as [H | H].
  - exists n. eapply validateNoteLine_error_lines; exact H.
  - apply (IH (S n)). rewrite E. exact H.
Qed.

Lemma tl_nth_back {A : Type} (l : list A) (i : nat) (x : A) (d : A) :
  nth_error (tl l) i = Some x -> nth_error l (S i) = Some x /\ nth (S i) l d = x
    /\ S (S i) <= List.length l.
Proof.
  destruct l as [| y l]; simpl; [destruct i; discriminate |].
  intros H. split; [exact H | split; [apply nth_error_nth, H |]].
  assert (i < List.length l) by (apply nth_error_Some; rewrite H; discriminate). lia.
Qed.

(** Every line number reported by [validateInput] is that of a line after
    the title ([2] to the number of lines), every position is between [1]
    and the number of notes on that line, and an error with no line has no
    position either. *)
Theorem validateInput_coordinates (cfg : ParseConfig) (input : string) :
  let ls := preprocessInput input in
  (forall e k, In e (errors (validateInput cfg input)) -> err_line e = Some k ->
     2 <= k <= List.length ls
     /\ forall p, err_position e = Some p ->
          1 <= p <= List.length (tokenize (nth (k - 1) ls EmptyString)))
  /\ (forall e, In e (errors (validateInput cfg input)) -> err_line e = None -> err_position e = None)
  /\ (forall w k, In w (warnings (validateInput cfg input)) -> warn_line w = Some k ->
     2 <= k <= List.length ls
     /\ forall p, warn_position w = Some p ->
          1 <= p <= List.length (tokenize (nth (k - 1) ls EmptyString))).
Proof.
  cbv zeta. destruct (is_empty (trim input)) eqn:Hb.
  - unfold validateInput. rewrite Hb. cbn [errors warnings In].
    split; [intros e k [<- | []]; discriminate |].
    split; [intros e [<- | []] _; reflexivity | contradiction].
  - split; [| split].
    + intros e k Hin Hk.
      apply (proj2 (validateInput_errors cfg input e Hb)) in Hin; [| rewrite Hk; discriminate].
      destruct (validate_lines_errors_at cfg k _ 2 e Hin Hk) as (l & Hl & H2 & Hl').
      destruct (tl_nth_back (preprocessInput input) (k - 2) l EmptyString Hl) as (_ & Hn & Hlen).
      replace (S (k - 2)) with (k - 1) in Hn, Hlen by lia.
      split; [lia |]. intros p Hp. rewrite Hn.
      destruct (validateNoteLine_errors_at cfg l k p e Hl' Hp) as (n & Hnth & H1 & _).
      rewrite <- (parseNotesFromLine_length cfg).
      assert (p - 1 < List.length (parseNotesFromLine cfg l))
        by (apply nth_error_Some; rewrite Hnth; discriminate). lia.
    + intros e Hin Hl. unfold validateInput in Hin. rewrite Hb in Hin. cbv zeta in Hin.
      destruct (validate_lines cfg 2 (tl (preprocessInput input))) as [e3 w3] eqn:E.
      cbn [errors] in Hin. apply in_app_or in Hin as [Hin | Hin].
      { destruct (List.length _ <? 2); cbn [In] in Hin; [destruct Hin as [<- | []]; reflexivity | contradiction]. }
      apply in_app_or in Hin as [Hin | Hin].
      { destruct (maxLines cfg <? _); cbn [In] in Hin; [destruct Hin as [<- | []]; reflexivity | contradiction]. }
      exfalso. destruct (validate_lines_error_lines cfg 2 (tl (preprocessInput input)) e) as [k Hk]; [rewrite E; exact Hin |].
      rewrite Hk in Hl. discriminate.
    + intros w k Hin Hk. rewrite (validateInput_warnings cfg input Hb) in Hin.
      destruct (validate_lines_warnings_at cfg k _ 2 w Hin Hk) as (l & Hl & H2 & Hl').
      destruct (tl_nth_back (preprocessInput input) (k - 2) l EmptyString Hl) as (_ & Hn & Hlen).
      replace (S (k - 2)) with (k - 1) in Hn, Hlen by lia.
      split; [lia |]. intros p Hp. rewrite Hn.
      exact (validateNoteLine_warning_pos cfg l k p w Hl' Hp).
Qed.

Lemma validateNoteLine_parsing_error (cfg : ParseConfig) (l : string) (m : nat) (e : ValidationError) :
  In e (errors (validateNoteLine cfg l m)) -> err_type e = PARSING_ERROR ->
  maxNotesPerLine cfg < List.length (tokenize l).
Proof.
  unfold validateNoteLine. destruct (is_empty (trim l)); [cbn [errors In]; contradiction |].
  destruct (validate_notes_loop cfg m 1 (parseNotesFromLine cfg l)) as [e2 w2] eqn:E.
  cbn [errors]. intros Hin Ht. apply in_app_or in Hin as [Hin | Hin].
  - rewrite <- (parseNotesFromLine_length cfg).
    destruct (maxNotesPerLine cfg <? _) eqn:Hlt; [apply Nat.ltb_lt, Hlt | contradiction].
  - pose proof (validate_notes_loop_error_types cfg m 1 (parseNotesFromLine cfg l)) as HF.
    rewrite E, Forall_forall in HF. rewrite (HF e Hin) in Ht. discriminate.
Qed.

(** [validateInput] reports a [PARSING_ERROR] on note line [k] exactly when
    that line holds more than [maxNotesPerLine] notes. *)
Theorem too_many_notes_error (cfg : ParseConfig) (input l : string) (k : nat)
  (Hk : 2 <= k) (Hl : nth_error (preprocessInput input) (k - 1) = Some l) :
  (exists e, In e (errors (validateInput cfg input))
             /\ err_type e = PARSING_ERROR /\ err_line e = Some k)
  <-> maxNotesPerLine cfg < List.length (tokenize l).
Proof.
  assert (Htl : nth_error (tl (preprocessInput input)) (k - 2) = Some l).
  { replace (k - 2) with (k - 1 - 1) by lia. apply tl_nth_error; [lia | exact Hl]. }
  split.
  - intros (e & Hin & Ht & Hk').
    destruct (is_empty (trim input)) eqn:Hb.
    { unfold validateInput in Hin. rewrite Hb in Hin. cbn [errors In] in Hin.
      destruct Hin as [<- | []]. discriminate. }
    apply (proj2 (validateInput_errors cfg input e Hb)) in Hin; [| rewrite Hk'; discriminate].
    destruct (validate_lines_errors_at cfg k _ 2 e Hin Hk') as (l' & Hl' & _ & Hin').
    rewrite Htl in Hl'. injection Hl' as <-.
    exact (validateNoteLine_parsing_error cfg l k e Hin' Ht).
  - intros Hlt.
    destruct (tokenize l) as [| tok toks] eqn:Ht; [simpl in Hlt; lia |].
    assert (Htok : nth_error (tokenize l) 0 = Some tok) by (rewrite Ht; reflexivity).
    destruct (token_input_nonblank input l tok (k - 1) 0 Hl Htok) as [Hb Hlb].
    rewrite <- Ht in Hlt. rewrite <- (parseNotesFromLine_length cfg) in Hlt.
    exists (mkError PARSING_ERROR
              ("Too many notes on line " ++ show_nat k ++ " ("
                 ++ show_nat (List.length (parseNotesFromLine cfg l)) ++ "). Maximum: "
                 ++ show_nat (maxNotesPerLine cfg))
              (Some k) None (Some ["Split long lines into multiple shorter lines"])).
    split; [| split; reflexivity].
    apply (proj1 (validateInput_errors cfg input _ Hb)).
    apply (validate_lines_in cfg _ 2 (k - 2) l); [exact Htl |].
    replace (2 + (k - 2)) with k by lia.
    unfold validateNoteLine. rewrite Hlb.
    destruct (validate_notes_loop cfg k 1 (parseNotesFromLine cfg l)) as [e2 w2].
    cbn [errors]. apply in_or_app. left.
    apply Nat.ltb_lt in Hlt. rewrite Hlt. left. reflexivity.
Qed.

Lemma too_many_notes_error_witness :
  let cfg := mkParseConfig true true 100 2 in
  let input := "Song" ++ newlines 1 ++ "F G A" in
  ((exists e, In e (errors (validateInput cfg input))
              /\ err_type e = PARSING_ERROR /\ err_line e = Some 2)
   <-> 2 < List.length (tokenize "F G A"))
  /\ 2 < List.length (tokenize "F G A").
Proof.
  cbv zeta. split.
  - apply (too_many_notes_error (mkParseConfig true true 100 2) _ "F G A" 2);
      [lia | vm_compute; reflexivity].
  - vm_compute. lia.
Defined.

Section StrictValidation.
Variables (a s1 s2 : bool) (mL mN : nat).
Local Abbreviation c1 := (mkParseConfig a s1 mL mN).
Local Abbreviation c2 := (mkParseConfig a s2 mL mN).

Lemma strict_convertNotes (ns : list string) : convertNotes c1 ns = convertNotes c2 ns.
Proof. induction ns as [| n ns IH]; simpl; [reflexivity | rewrite IH; reflexivity]. Qed.

Lemma strict_parseNotesFromLine (l : string) : parseNotesFromLine c1 l = parseNotesFromLine c2 l.
Proof. unfold parseNotesFromLine. rewrite strict_convertNotes. reflexivity. Qed.

Lemma strict_parseNoteLines (ls : list string) : parseNoteLines c1 ls = parseNoteLines c2 ls.
Proof.
  induction ls as [| l ls IH]; simpl; [reflexivity |].
  rewrite strict_parseNotesFromLine, IH. reflexivity.
Qed.

Lemma strict_b_warnings (m k : nat) (ns : list string) : b_warnings c1 m k ns = b_warnings c2 m k ns.
Proof. revert k; induction ns as [| n ns IH]; intros k; simpl; [reflexivity | rewrite IH; reflexivity]. Qed.

Lemma strict_validate_notes_loop (m k : nat) (ns : list string) :
  validate_notes_loop c1 m k ns = validate_notes_loop c2 m k ns.
Proof. revert k; induction ns as [| n ns IH]; intros k; simpl; [reflexivity | rewrite IH; reflexivity]. Qed.

Lemma strict_validateNoteLine (l : string) (m : nat) :
  validateNoteLine c1 l m = validateNoteLine c2 l m.
Proof.
  unfold validateNoteLine. rewrite strict_b_warnings, strict_parseNotesFromLine, strict_validate_notes_loop.
  reflexivity.
Qed.

Lemma strict_validate_lines (m : nat) (ls : list string) :
  validate_lines c1 m ls = validate_lines c2 m ls.
Proof.
  revert m; induction ls as [| l ls IH]; intros m; simpl; [reflexivity |].
  rewrite strict_validateNoteLine, IH. reflexivity.
Qed.

(** The [strictValidation] option is never read: two configurations that
    differ only in it validate and parse every input identically. *)
Theorem strictValidation_unused (now : nat) (input : string) :
  validateInput c1 input = validateInput c2 input
  /\ parseSong c1 now input = parseSong c2 now input.
Proof.
  assert (Hv : validateInput c1 input = validateInput c2 input).
  { unfold validateInput. rewrite strict_validate_lines. reflexivity. }
  split; [exact Hv |].
  unfold parseSong. rewrite Hv, strict_parseNoteLines. reflexivity.
Qed.

End StrictValidation.

(** An input with no line feed is never valid; unless it is blank, the
    errors include the one asking for a title and a line of notes. *)
Theorem validateInput_single_line (cfg : ParseConfig) (input : string)
  (H : count_char (ascii_of_nat 10) input = 0) :
  isValid (validateInput cfg input) = false
  /\ (is_empty (trim input) = false ->
      In (mkError PARSING_ERROR "Input must contain a title and at least one line of notes"
            None None (Some ["Add a title on the first line and notes on subsequent lines"]))
         (errors (validateInput cfg input))).
Proof.
  assert (Hlen : List.length (preprocessInput input) = 1).
  { unfold preprocessInput. rewrite length_map, split_lf_length, H. reflexivity. }
  unfold validateInput. destruct (is_empty (trim input)) eqn:Hb.
  - split; [reflexivity | discriminate].
  - cbv zeta. rewrite Hlen. destruct (validate_lines cfg 2 (tl (preprocessInput input))) as [e3 w3].
    split; [reflexivity |]. intros _. left. reflexivity.
Qed.

Lemma validateInput_single_line_witness :
  count_char (ascii_of_nat 10) "Title: Tune" = 0
  /\ isValid (validateInput DEFAULT_CONFIG "Title: Tune") = false.
Proof.
  split; [reflexivity |].
  apply (validateInput_single_line DEFAULT_CONFIG "Title: Tune"). reflexivity.
Defined.

End ParserExtras.

Module FingeringExtras.
Import Js Ref Ref2 StrFacts ParserFacts FingeringEngine.

Lemma getPattern_none (n : string) :
  getPattern n = None <-> includes SUPPORTED_NOTES (trim n) = false.
Proof.
  unfold getPattern, isSupported, normalizeNote. rewrite trim_idem.
  destruct (includes SUPPORTED_NOTES (trim n)) eqn:E; simpl; [| tauto].
  apply includes_In in E. simpl in E.
  repeat (destruct E as [E | E]; [rewrite <- E; split; discriminate |]). destruct E.
Qed.

(** [getPattern] answers exactly for the notes [isSupported] accepts, with
    the trimmed note as its name and four holes. *)
Theorem getPattern_isSupported (n : string) :
  (getPattern n <> None <-> isSupported n = true)
  /\ (forall p, getPattern n = Some p -> note p = trim n /\ List.length (holes p) = 4).
Proof.
  split.
  - unfold isSupported, normalizeNote. rewrite <- not_false_iff_true, <- getPattern_none. tauto.
  - intros p. unfold getPattern, isSupported, normalizeNote. rewrite trim_idem.
    destruct (includes SUPPORTED_NOTES (trim n)) eqn:E; simpl; [| discriminate].
    apply includes_In in E. simpl in E.
    repeat (destruct E as [E | E]; [rewrite <- E; intros H; injection H as <-; split; reflexivity |]).
    destruct E.
Qed.

Lemma validateNotes_from_positions (ns : list string) :
  forall i es, validateNotes_from i ns = Ok es ->
  map err_position es = map Some (none_positions i (getPatterns ns)).
Proof.
  induction ns as [| n ns IH]; intros i es H; simpl in H.
  - injection H as <-. reflexivity.
  - unfold isSupported, normalizeNote in H. rewrite trim_idem in H.
    unfold getPatterns. simpl. fold (getPatterns ns).
    destruct (includes SUPPORTED_NOTES (trim n)) eqn:E; simpl in H.
    + destruct (getPattern n) eqn:Ep; [| apply getPattern_none in Ep; congruence].
      simpl. exact (IH (S i) es H).
    + assert (Ep : getPattern n = None) by (apply getPattern_none; exact E). rewrite Ep.
      destruct (getSuggestions (trim n)); [| discriminate].
      destruct (validateNotes_from (S i) ns) as [es' |] eqn:Er; [| discriminate].
      injection H as <-. simpl. f_equal. exact (IH (S i) es' Er).
Qed.

Lemma none_positions_nil (i : nat) (ps : list (option FingeringPattern)) :
  none_positions i ps = [] <-> Forall (fun o => o <> None) ps.
Proof.
  revert i; induction ps as [| [p |] ps IH]; intros i; simpl.
  - split; constructor.
  - rewrite IH. split; [intros H; constructor; [discriminate | exact H] | intros H; inversion H; auto].
  - split; [discriminate | intros H; inversion H; contradiction].
Qed.

(** When [validateNotes] returns, its errors sit exactly at the indices
    where [getPatterns] gives [null], and it reports the notes valid exactly
    when every pattern was found. *)
Theorem validateNotes_getPatterns (ns : list string) (r : ValidationResult)
  (H : validateNotes ns = Ok r) :
  map err_position (errors r) = map Some (none_positions 0 (getPatterns ns))
  /\ (isValid r = true <-> Forall (fun o => o <> None) (getPatterns ns)).
Proof.
  unfold validateNotes in H. destruct (validateNotes_from 0 ns) as [es |] eqn:E; [| discriminate].
  injection H as <-. cbn [errors isValid].
  pose proof (validateNotes_from_positions ns 0 es E) as Hp. split; [exact Hp |].
  rewrite <- (none_positions_nil 0).
  destruct (none_positions 0 (getPatterns ns)) as [| q qs]; destruct es as [| e es];
    cbn [no_errors map] in *; split; intros; congruence.
Qed.

Lemma validateNotes_getPatterns_witness :
  exists r, validateNotes ["F"; "x"; " Bb"; "Q"] = Ok r
    /\ map err_position (errors r) = [Some 1; Some 3] /\ isValid r = false.
Proof.
  eexists. split; [reflexivity |].
  destruct (validateNotes_getPatterns ["F"; "x"; " Bb"; "Q"] _ eq_refl) as [H1 H2].
  split; [exact H1 | reflexivity].
Defined.

End FingeringExtras.

Module RegionExtras.
Import Regions.
Local Open Scope Q_scope.

Lemma Qle_bool_abs_sym (a b : Q) : Qle_bool (Qabs (a - b)) 10 = Qle_bool (Qabs (b - a)) 10.
Proof.
  destruct (Qle_bool (Qabs (a - b)) 10) eqn:E1, (Qle_bool (Qabs (b - a)) 10) eqn:E2; auto.
  - apply Qle_bool_iff in E1. rewrite Qabs_Qminus in E1. apply Qle_bool_iff in E1. congruence.
  - apply Qle_bool_iff in E2. rewrite Qabs_Qminus in E2. apply Qle_bool_iff in E2. congruence.
Qed.

(** Whether two regions intersect, and whether they can be merged, does not
    depend on the order in which they are given. *)
Theorem region_tests_symmetric (r1 r2 : DirtyRegion) :
  regionsIntersect r1 r2 = regionsIntersect r2 r1
  /\ canMergeRegions r1 r2 = canMergeRegions r2 r1.
Proof.
  assert (Hi : regionsIntersect r1 r2 = regionsIntersect r2 r1).
  { unfold regionsIntersect.
    destruct (Qltb (rx r1 + rwidth r1) (rx r2)), (Qltb (rx r2 + rwidth r2) (rx r1)),
             (Qltb (ry r1 + rheight r1) (ry r2)), (Qltb (ry r2 + rheight r2) (ry r1)); reflexivity. }
  split; [exact Hi |]. unfold canMergeRegions. rewrite Hi, (Qle_bool_abs_sym (rx r1)), (Qle_bool_abs_sym (ry r1)).
  reflexivity.
Qed.

End RegionExtras.

Module PreviewExtras.
Import Js Ref Ref4 FingeringEngine Render Preview StrFacts ParserFacts NoteParser.


















End PreviewExtras.

Module ColorExtras.
Import Js Ref5 Render.

Lemma byte_ok_all (n : nat) : n < 256 -> byte_ok n = true.
Proof.
  assert (H : forallb byte_ok (List.seq 0 256) = true) by (vm_compute; reflexivity).
  intros Hn. rewrite forallb_forall in H. apply H, in_seq. lia.
Qed.

Lemma byte_facts (n : nat) : n < 256 ->
  hex_pair (hex_digit (n / 16)) (hex_digit (n mod 16)) = Some n
  /\ hex_pair (upper_char (hex_digit (n / 16))) (upper_char (hex_digit (n mod 16))) = Some n
  /\ Ascii.eqb (hex_digit (n / 16)) "#"%char = false
  /\ Ascii.eqb (upper_char (hex_digit (n / 16))) "#"%char = false.
Proof.
  intros Hn. pose proof (byte_ok_all n Hn) as H. unfold byte_ok in H.
  destruct (hex_pair (hex_digit (n / 16)) (hex_digit (n mod 16))) as [a |]; [| discriminate].
  destruct (hex_pair (upper_char _) (upper_char _)) as [b |]; [| discriminate].
  apply andb_true_iff in H as [H H4]. apply andb_true_iff in H as [H H3].
  apply andb_true_iff in H as [H1 H2].
  apply Nat.eqb_eq in H1, H2. apply negb_true_iff in H3, H4. subst. auto.
Qed.

(** [hexToRgb] reads back any colour written as six hexadecimal digits,
    with or without the leading ['#'], and in lower or in upper case. *)
Theorem hexToRgb_roundtrip (r g b : nat) (Hr : r < 256) (Hg : g < 256) (Hb : b < 256) :
  hexToRgb ("#" ++ hex2 r ++ hex2 g ++ hex2 b) = Some (mkRGB r g b)
  /\ hexToRgb (hex2 r ++ hex2 g ++ hex2 b) = Some (mkRGB r g b)
  /\ hexToRgb (toUpperCase ("#" ++ hex2 r ++ hex2 g ++ hex2 b)) = Some (mkRGB r g b)
  /\ hexToRgb (toUpperCase (hex2 r ++ hex2 g ++ hex2 b)) = Some (mkRGB r g b).
Proof.
  destruct (byte_facts r Hr) as (R1 & R2 & R3 & R4).
  destruct (byte_facts g Hg) as (G1 & G2 & _ & _).
  destruct (byte_facts b Hb) as (B1 & B2 & _ & _).
  unfold hex2, toUpperCase. cbn [append map_chars].
  change (upper_char "#"%char) with "#"%char.
  revert R1 R2 R3 R4 G1 G2 B1 B2.
  generalize (hex_digit (r / 16)) (hex_digit (r mod 16)) (hex_digit (g / 16)) (hex_digit (g mod 16))
             (hex_digit (b / 16)) (hex_digit (b mod 16)).
  intros a1 a2 b1 b2 c1 c2 R1 R2 R3 R4 G1 G2 B1 B2.
  unfold hexToRgb. cbn [Ascii.eqb Bool.eqb]. rewrite R3, R4, R1, R2, G1, G2, B1, B2.
  repeat split.
Qed.

Lemma hexToRgb_roundtrip_witness :
  hex2 26 ++ hex2 255 ++ hex2 0 = "1aff00"
  /\ hexToRgb (toUpperCase ("1aff00")) = Some (mkRGB 26 255 0).
Proof.
  split; [reflexivity |].
  apply (hexToRgb_roundtrip 26 255 0); lia.
Defined.

(** [hasContent] finds nothing when the background colour is not a
    six-digit hex colour (such as ['#fff']), or when every pixel is fully
    transparent. *)
Theorem hasContent_false (cfg : Layout.ChartConfig) (data : list Pixel)
  (H : hexToRgb (Layout.background (Layout.colors cfg)) = None
       \/ Forall (fun p => px_a p = 0) data) :
  hasContent cfg data = false.
Proof.
  unfold hasContent. apply not_true_iff_false. rewrite existsb_exists.
  intros (p & Hin & Hp). destruct H as [H | H].
  - rewrite H in Hp. destruct (0 <? px_a p); discriminate.
  - rewrite Forall_forall in H. rewrite (H p Hin) in Hp. discriminate.
Qed.

Lemma hasContent_false_witness :
  let cfg := Layout.mkChartConfig 800 600 12 8 (Layout.mkColors "#fff" "#000" "#fff" "#000") in
  hexToRgb "#fff" = None /\ hasContent cfg [mkPixel 0 0 0 255] = false.
Proof.
  cbv zeta. split; [reflexivity |]. apply hasContent_false. left. reflexivity.
Defined.

End ColorExtras.

Module ExportExtras.
Import Js Ref Ref5 StrFacts FilenameFacts ParserFacts Filename ExportManager.

Lemma all_chars_map (p : ascii -> bool) (f : ascii -> ascii) (s : string) :
  (forall c, p c = true -> p (f c) = true) -> all_chars p s = true -> all_chars p (map_chars f s) = true.
Proof.
  intros Hf. induction s as [| c t IH]; simpl; [reflexivity |].
  intros H. apply andb_true_iff in H as [H1 H2]. rewrite Hf, IH; auto.
Qed.

Lemma filter_chars_sat (p : ascii -> bool) (s : string) : all_chars p (filter_chars p s) = true.
Proof.
  induction s as [| c t IH]; simpl; [reflexivity |].
  destruct (p c) eqn:E; simpl; [rewrite E, IH; reflexivity | exact IH].
Qed.

Lemma collapse_runs_slug (p : ascii -> bool) (b : bool) (s : string) :
  all_chars (fun c => slug_char c || p c) s = true -> all_chars slug_char (collapse_runs p b s) = true.
Proof.
  revert b; induction s as [| c t IH]; intros b H; simpl; [reflexivity |].
  simpl in H. apply andb_true_iff in H as [H1 H2].
  destruct (p c) eqn:E.
  - destruct b; [apply IH, H2 | simpl; apply IH, H2].
  - rewrite orb_false_r in H1. simpl. rewrite H1. apply IH, H2.
Qed.

Lemma strip_hyphens_all (p : ascii -> bool) (s : string) :
  all_chars p s = true -> all_chars p (strip_hyphens s) = true.
Proof.
  intros H. unfold strip_hyphens.
  assert (H' : all_chars p (match s with
                            | String c t => if is_hyphen c then t else s
                            | EmptyString => s
                            end) = true).
  { destruct s as [| c t]; [exact H |]. destruct (is_hyphen c); [| exact H].
    simpl in H. apply andb_true_iff in H as [_ H]. exact H. }
  destruct (String.get _ _) as [c |]; [| exact H'].
  destruct (_ && is_hyphen c); [apply substring_all, H' | exact H'].
Qed.

Lemma clean_slug (title : string) : all_chars slug_char (clean title) = true.
Proof.
  unfold clean, toLowerCase. apply all_chars_map.
  - intros c. destruct c as [[] [] [] [] [] [] [] []]; vm_compute; congruence.
  - apply strip_hyphens_all. apply collapse_runs_slug.
    eapply all_chars_impl; [| apply collapse_runs_slug].
    + intros c H. rewrite H. reflexivity.
    + eapply all_chars_impl; [| apply filter_chars_sat].
      intros c. unfold slug_char. destruct (is_word c), (is_hyphen c), (is_ws c); intros H; simpl in *; congruence.
Qed.

Lemma compact_stamp_facts (d : Date) :
  date_fields_ok d ->
  String.length (compact_stamp d) = 15 /\ all_chars slug_char (compact_stamp d) = true.
Proof.
  intros (Hy & Hmo & Hd & Hh & Hmi & Hs & _). unfold compact_stamp.
  assert (Hw : forall w n, all_chars slug_char (pad w n) = true).
  { intros w n. eapply all_chars_impl; [| apply pad_digits].
    intros c. destruct c as [[] [] [] [] [] [] [] []]; vm_compute; congruence. }
  rewrite !length_append, !all_chars_append, !Hw.
  assert (P2 : forall n, n <= 59 -> String.length (pad 2 n) = 2)
    by (intros n Hn; apply pad_length; [lia | change (n < 100); lia]).
  assert (Hy' : year d < 10 ^ 4)
    by (eapply Nat.le_lt_trans; [exact Hy | apply Nat.ltb_lt; vm_compute; reflexivity]).
  rewrite (pad_length 4) by (exact Hy' || lia).
  rewrite (P2 (month d)), (P2 (day d)), (P2 (hours d)), (P2 (minutes d)), (P2 (seconds d)) by lia.
  split; reflexivity.
Qed.

Lemma exists_char_none (p : ascii -> bool) (s : string) :
  all_chars (fun c => negb (p c)) s = true -> exists_char p s = false.
Proof.
  induction s as [| c t IH]; simpl; [reflexivity |].
  intros H. apply andb_true_iff in H as [H1 H2]. apply negb_true_iff in H1. rewrite H1, IH; auto.
Qed.

Lemma trim_not_blank (s : string) : all_chars is_ws s = false -> is_empty (trim s) = false.
Proof.
  intros H. destruct (trim s) eqn:E; [| reflexivity].
  apply trim_empty_ltrim, ltrim_empty_all_ws in E. congruence.
Qed.

(** A file name made by [generateFilename] with the default export settings
    passes [validateFilename] exactly when the cleaned title, cut to 50
    characters, has at most 40 of them; otherwise it is rejected as too
    long. *)
Theorem validateFilename_generated (title : string) (d : Date) (Hd : date_fields_ok d) :
  validateFilename DEFAULT_EXPORT_CONFIG (export_generateFilename DEFAULT_EXPORT_CONFIG title "png" d)
  = if String.length (String.substring 0 50 (clean title)) <=? 40 then mkCheck true None
    else mkCheck false (Some "Filename too long (max 50 characters)").
Proof.
  destruct (compact_stamp_facts d Hd) as [Ls Cs].
  unfold export_generateFilename. cbn [maxFilenameLength includeTimestamp DEFAULT_EXPORT_CONFIG].
  rewrite (timestamp_spec d Hd).
  set (sub := String.substring 0 50 (clean title)).
  assert (Csub : all_chars slug_char sub = true) by apply substring_all, clean_slug.
  set (slug := if is_empty sub then "ocarina-chart" else sub).
  assert (Cslug : all_chars slug_char slug = true) by (unfold slug; destruct (is_empty sub); [reflexivity | exact Csub]).
  assert (Lslug : String.length slug <= 40 <-> String.length sub <= 40).
  { unfold slug. destruct sub; simpl; [split; lia | tauto]. }
  assert (Hsl : forall c, slug_char c = true -> negb (is_invalid_char c) = true)
    by (intros c; destruct c as [[] [] [] [] [] [] [] []]; vm_compute; congruence).
  unfold validateFilename.
  rewrite trim_not_blank by (rewrite !all_chars_append; simpl; rewrite !andb_false_r; reflexivity).
  rewrite exists_char_none.
  2: { rewrite !all_chars_append, (all_chars_impl _ _ _ Hsl Cslug), (all_chars_impl _ _ _ Hsl Cs).
       vm_compute. reflexivity. }
  rewrite !length_append, Ls. cbn [String.length maxFilenameLength DEFAULT_EXPORT_CONFIG].
  destruct (String.length sub <=? 40) eqn:E.
  - apply Nat.leb_le in E. apply Lslug in E. replace (50 + 10 <? _) with false
      by (symmetry; apply Nat.ltb_ge; lia). reflexivity.
  - apply Nat.leb_gt in E. assert (E' : 40 < String.length slug) by (destruct (Nat.le_gt_cases (String.length slug) 40) as [H|H]; [apply Lslug in H; lia | exact H]).
    replace (50 + 10 <? _) with true by (symmetry; apply Nat.ltb_lt; lia). reflexivity.
Qed.

Lemma validateFilename_generated_witness :
  date_fields_ok d0
  /\ validateFilename DEFAULT_EXPORT_CONFIG
       (export_generateFilename DEFAULT_EXPORT_CONFIG "A very long song title, far too long to export" "png" d0)
     = mkCheck false (Some "Filename too long (max 50 characters)").
Proof.
  assert (Hd : date_fields_ok d0)
    by (unfold date_fields_ok, d0; cbn [year month day hours minutes seconds millis];
        repeat split; apply Nat.leb_le; vm_compute; reflexivity).
  split; [exact Hd |].
  rewrite (validateFilename_generated _ d0 Hd). vm_compute. reflexivity.
Defined.

Lemma unsubscribe_subscribe_aux (ls : Listeners) (l : nat) :
  match indexOf (ls ++ [l])%list l with
  | Some i => remove_at (ls ++ [l])%list i
  | None => (ls ++ [l])%list
  end
  = if existsb (Nat.eqb l) ls
    then (match indexOf ls l with Some i => remove_at ls i | None => ls end ++ [l])%list
    else ls.
Proof.
  induction ls as [| y ys IH]; simpl; [rewrite Nat.eqb_refl; reflexivity |].
  destruct (Nat.eqb l y); [reflexivity |]. simpl.
  destruct (indexOf (ys ++ [l])%list l) as [i |] eqn:E; simpl; rewrite IH;
    destruct (existsb (Nat.eqb l) ys); try reflexivity;
    destruct (indexOf ys l); reflexivity.
Qed.

(** Unsubscribing a listener right after subscribing it gives back the
    original array when the listener was not subscribed yet; when it already
    was, the earlier copy is removed and the new one stays at the end. *)
Theorem unsubscribe_after_subscribe (ls : Listeners) (l : nat) :
  unsubscribe (subscribe ls l) l
  = if existsb (Nat.eqb l) ls then subscribe (unsubscribe ls l) l else ls.
Proof.
  unfold unsubscribe, subscribe. apply unsubscribe_subscribe_aux.
Qed.

End ExportExtras.
